(** * Bottles backend coordination core

    A shallow embedding of [bottles/backend/state.py] (locks, tasks and the
    signal bus composed into [State]) and of [bottles/backend/repos/repo.py]
    ([Repo] and [RepoStatus]), with the properties of the specification
    stated and settled against it.

    Python objects that are shared and mutated in place (Task and Repo
    instances, the class-level dictionaries) live in an explicit store that
    every operation threads through; an operation ends by returning, by
    raising, or by blocking its caller. *)

From Stdlib Require Import ZArith String List.
From Stdlib Require Import Floats.SpecFloat.
From stdpp Require Import gmap strings list fin_maps pretty.

(** ** Values, exceptions and outcomes shared by the two modules *)

(** [state.Status] *)
Inductive Status := RUNNING | DONE | FAILED.

(** A UUID is a 128-bit number. *)
Definition UUID := N.

(** The Python values that flow through the modelled code: signal payloads,
    the [status] argument of [stream_update], parsed YAML documents. *)
#[local] Unset Elimination Schemes.
Inductive value :=
  | VNone
  | VBool (b : bool)
  | VInt (z : Z)
  | VStr (s : string)
  | VUuid (u : UUID)
  | VStatus (s : Status)
  | VTuple (items : list value)
  | VList (items : list value)
  | VDict (items : list (value * value)).
#[local] Set Elimination Schemes.

(** The exceptions the modelled code raises or lets through. *)
Inductive exn :=
  | NotImplementedError (msg : string)
  | KeyError (key : value)
  | ZeroDivisionError
  | OverflowError
  | ValueError
  | RuntimeError
  | UnicodeDecodeError
  | UnicodeEncodeError
  | pycurl_error
  | YAMLError
  | OtherError (name : string).

(** How a call ends: it returns a value, raises, or blocks the calling
    thread (a held [threading.Lock], an unset [threading.Event]). *)
Inductive outcome (A : Type) :=
  | Ret (a : A)
  | Raise (e : exn)
  | Block.
Arguments Ret {A} a.
Arguments Raise {A} e.
Arguments Block {A}.

(** Modelled from the spec: the Logger collaborator
    ([bottles.backend.logger.Logger], not among the sources) "accepts
    leveled text messages (debug/info/error); no return value observed by
    the core". A call appends the level and the text to the trace. *)
Inductive level := DEBUG | INFO | ERROR.

(** Stateful computations over a store [W]. *)
Section Monad.
Context {W : Type}.

Definition M (A : Type) : Type := W -> outcome A * W.

Definition ret {A} (a : A) : M A := fun w => (Ret a, w).

Definition raise {A} (e : exn) : M A := fun w => (Raise e, w).

Definition block {A} : M A := fun w => (Block, w).

Definition bind {A B} (m : M A) (k : A -> M B) : M B :=
  fun w =>
    match m w with
    | (Ret a, w') => k a w'
    | (Raise e, w') => (Raise e, w')
    | (Block, w') => (Block, w')
    end.

Definition get : M W := fun w => (Ret w, w).

Definition modify (f : W -> W) : M unit := fun w => (Ret tt, f w).

(** [try: body except (classes): handler] *)
Definition try_except {A} (body : M A) (caught : exn -> bool)
    (handler : M A) : M A :=
  fun w =>
    match body w with
    | (Raise e, w') => if caught e then handler w' else (Raise e, w')
    | r => r
    end.

(** [for x in xs: body x] *)
Fixpoint for_each {A} (xs : list A) (body : A -> M unit) : M unit :=
  match xs with
  | [] => ret tt
  | x :: xs' => bind (body x) (fun _ => for_each xs' body)
  end.
End Monad.
Arguments M : clear implicits.

#[global] Instance M_ret {W} : MRet (M W) := fun A => @ret W A.
#[global] Instance M_bind {W} : MBind (M W) := fun A B k m => @bind W A B m k.

(** The store a computation leaves behind, and how it ends. *)
Definition exec {W A} (m : M W A) (w : W) : W := (m w).2.

Definition ends {W A} (m : M W A) (w : W) : outcome A := (m w).1.

(** ** Python arithmetic used by [Task.stream_update] *)

(** [a / b] on two ints: the correctly rounded binary64 quotient;
    [ZeroDivisionError] for a zero divisor, [OverflowError] when the
    quotient is too large for a float. *)
Definition float_of_int_exact (z : Z) : spec_float :=
  match z with
  | Z0 => S754_zero false
  | Zpos p => S754_finite false p 0
  | Zneg p => S754_finite true p 0
  end.

Definition int_truediv (a b : Z) : exn + spec_float :=
  if (b =? 0)%Z then inl ZeroDivisionError
  else
    match SFdiv 53 1024 (float_of_int_exact a) (float_of_int_exact b) with
    | S754_infinity _ => inl OverflowError
    | q => inr q
    end.

(** [x * n] for a float [x] and an int [n] that a float represents
    exactly. *)
Definition float_mul_int (x : spec_float) (n : Z) : spec_float :=
  SFmul 53 1024 x (binary_normalize 53 1024 n 0 false).

(** [int(x)]: truncation towards zero. *)
Definition int_of_float (x : spec_float) : exn + Z :=
  match x with
  | S754_zero _ => inr 0%Z
  | S754_infinity _ => inl OverflowError
  | S754_nan => inl ValueError
  | S754_finite s m e =>
      let t := match e with
               | Zneg k => Z.shiftr (Zpos m) (Zpos k)
               | _ => Z.shiftl (Zpos m) e
               end in
      inr (if s then (- t)%Z else t)
  end.

(** [int(received_size / total_size * 100)] *)
Definition percent_of (received_size total_size : Z) : exn + Z :=
  match int_truediv received_size total_size with
  | inl e => inl e
  | inr q => int_of_float (float_mul_int q 100)
  end.

(** [dict.setdefault(k, v)], for the store it leaves behind. *)
Definition setdefault `{Countable K} {V} (k : K) (v : V) (m : gmap K V) :
    gmap K V :=
  match m !! k with
  | Some _ => m
  | None => <[k:=v]> m
  end.

(** * bottles/backend/state.py *)
Module StatePy.

(** [class Locks(Enum)] *)
Inductive Locks := ComponentsInstall.

(** [class Signals(Enum)] *)
Inductive Signals :=
  | ManagerLocalBottlesLoaded
  | RepositoryFetched
  | NetworkStatusChanged
  | GNotification
  | GShowUri
  | TaskAdded
  | TaskRemoved
  | TaskUpdated.

#[global] Instance Locks_eq_dec : EqDecision Locks.
Proof. solve_decision. Defined.

#[global] Instance Locks_countable : Countable Locks.
Proof.
  refine (inj_countable' (fun _ => tt) (fun _ => ComponentsInstall) _).
  by intros [].
Defined.

#[global] Instance Signals_eq_dec : EqDecision Signals.
Proof. solve_decision. Defined.

Definition Signals_index (s : Signals) : nat :=
  match s with
  | ManagerLocalBottlesLoaded => 0
  | RepositoryFetched => 1
  | NetworkStatusChanged => 2
  | GNotification => 3
  | GShowUri => 4
  | TaskAdded => 5
  | TaskRemoved => 6
  | TaskUpdated => 7
  end.

Definition Signals_of_index (n : nat) : Signals :=
  match n with
  | 0 => ManagerLocalBottlesLoaded
  | 1 => RepositoryFetched
  | 2 => NetworkStatusChanged
  | 3 => GNotification
  | 4 => GShowUri
  | 5 => TaskAdded
  | 6 => TaskRemoved
  | _ => TaskUpdated
  end.

#[global] Instance Signals_countable : Countable Signals.
Proof.
  refine (inj_countable' Signals_index Signals_of_index _).
  by intros [].
Defined.

(** [str(signal)], as the f-string of [send_signal] formats it. *)
Definition Signals_str (s : Signals) : string :=
  match s with
  | ManagerLocalBottlesLoaded => "Signals.ManagerLocalBottlesLoaded"
  | RepositoryFetched => "Signals.RepositoryFetched"
  | NetworkStatusChanged => "Signals.NetworkStatusChanged"
  | GNotification => "Signals.GNotification"
  | GShowUri => "Signals.GShowUri"
  | TaskAdded => "Signals.TaskAdded"
  | TaskRemoved => "Signals.TaskRemoved"
  | TaskUpdated => "Signals.TaskUpdated"
  end.

(** Modelled from the spec: the payload class
    ([bottles.backend.models.result.Result], not among the sources): "a
    success flag and an arbitrary data value". *)
Record Result := mkResult { status : bool; data : value }.

(** [class Task]; the defaults are the class attributes. *)
Record Task := mkTask {
  _task_id : option UUID;
  title : string;
  _subtitle : string;
  hidden : bool;
  cancellable : bool
}.

Definition Task_class : Task :=
  {| _task_id := None; title := "Task"; _subtitle := "";
     hidden := false; cancellable := false |}.

#[global] Instance Task_inhabited : Inhabited Task := populate Task_class.

Definition with_task_id (v : option UUID) (t : Task) : Task :=
  {| _task_id := v; title := title t; _subtitle := _subtitle t;
     hidden := hidden t; cancellable := cancellable t |}.

Definition with_title (v : string) (t : Task) : Task :=
  {| _task_id := _task_id t; title := v; _subtitle := _subtitle t;
     hidden := hidden t; cancellable := cancellable t |}.

Definition with_subtitle (v : string) (t : Task) : Task :=
  {| _task_id := _task_id t; title := title t; _subtitle := v;
     hidden := hidden t; cancellable := cancellable t |}.

Definition with_hidden (v : bool) (t : Task) : Task :=
  {| _task_id := _task_id t; title := title t; _subtitle := _subtitle t;
     hidden := v; cancellable := cancellable t |}.

Definition with_cancellable (v : bool) (t : Task) : Task :=
  {| _task_id := _task_id t; title := title t; _subtitle := _subtitle t;
     hidden := hidden t; cancellable := v |}.

(** The payload value of an identifier that may not be assigned yet. *)
Definition value_of_id (id : option UUID) : value :=
  match id with
  | Some u => VUuid u
  | None => VNone
  end.

(** What the trace records: a Logger call, or the call [fn(data)] of a
    signal handler. *)
Inductive event :=
  | Log (lvl : level) (msg : string)
  | Call (handler : nat) (payload : option Result).

Section State.
(** The state the signal handlers act on (the frontend). *)
Context {UI : Type}.

(** [class SignalHandler(Protocol)]: a callable taking the optional
    [Result] and returning [None]; [handler_id] tells the callables
    apart. *)
Record SignalHandler := mkHandler {
  handler_id : nat;
  handler_call : option Result -> UI -> UI
}.

(** [class State(LockManager, EventManager, TaskManager, SignalManager)]
    with the objects it refers to. A lock is [true] while held.
    ([EventManager._EVENTS] is keyed by the empty enumeration [Events] and
    no method touches it.) *)
Record State := mkState {
  heap : gmap nat Task;
  _LOCKS : gmap Locks bool;
  _TASKS : gmap UUID nat;
  _SIGNALS : gmap Signals (list SignalHandler);
  uuid4_calls : nat;
  trace : list event;
  ui : UI
}.

Definition on_heap (f : gmap nat Task -> gmap nat Task) (w : State) :=
  {| heap := f (heap w); _LOCKS := _LOCKS w; _TASKS := _TASKS w;
     _SIGNALS := _SIGNALS w; uuid4_calls := uuid4_calls w;
     trace := trace w; ui := ui w |}.

Definition on_LOCKS (f : gmap Locks bool -> gmap Locks bool) (w : State) :=
  {| heap := heap w; _LOCKS := f (_LOCKS w); _TASKS := _TASKS w;
     _SIGNALS := _SIGNALS w; uuid4_calls := uuid4_calls w;
     trace := trace w; ui := ui w |}.

Definition on_TASKS (f : gmap UUID nat -> gmap UUID nat) (w : State) :=
  {| heap := heap w; _LOCKS := _LOCKS w; _TASKS := f (_TASKS w);
     _SIGNALS := _SIGNALS w; uuid4_calls := uuid4_calls w;
     trace := trace w; ui := ui w |}.

Definition on_SIGNALS
    (f : gmap Signals (list SignalHandler) ->
         gmap Signals (list SignalHandler)) (w : State) :=
  {| heap := heap w; _LOCKS := _LOCKS w; _TASKS := _TASKS w;
     _SIGNALS := f (_SIGNALS w); uuid4_calls := uuid4_calls w;
     trace := trace w; ui := ui w |}.

Definition on_uuid4_calls (f : nat -> nat) (w : State) :=
  {| heap := heap w; _LOCKS := _LOCKS w; _TASKS := _TASKS w;
     _SIGNALS := _SIGNALS w; uuid4_calls := f (uuid4_calls w);
     trace := trace w; ui := ui w |}.

Definition on_trace (f : list event -> list event) (w : State) :=
  {| heap := heap w; _LOCKS := _LOCKS w; _TASKS := _TASKS w;
     _SIGNALS := _SIGNALS w; uuid4_calls := uuid4_calls w;
     trace := f (trace w); ui := ui w |}.

Definition on_ui (f : UI -> UI) (w : State) :=
  {| heap := heap w; _LOCKS := _LOCKS w; _TASKS := _TASKS w;
     _SIGNALS := _SIGNALS w; uuid4_calls := uuid4_calls w;
     trace := trace w; ui := f (ui w) |}.

(** The interpreter state when the module has just been loaded. *)
Definition State_loaded (u : UI) : State :=
  {| heap := ∅; _LOCKS := ∅; _TASKS := ∅; _SIGNALS := ∅;
     uuid4_calls := 0; trace := []; ui := u |}.

(** [uuid.uuid4()]: the [n]-th call returns the [n]-th identifier the
    entropy source yields. *)
Variable uuid4_source : nat -> UUID.

(** [gettext.gettext], the translation of a message. *)
Variable gettext : string -> string.

Definition uuid4 : M State UUID :=
  w ← get;
  modify (on_uuid4_calls S);;
  mret (uuid4_source (uuid4_calls w)).

Definition logging_debug (msg : string) : M State unit :=
  modify (on_trace (fun tr => tr ++ [Log DEBUG msg])).

(** *** SignalManager *)

Definition connect_signal (signal : Signals) (handler : SignalHandler) :
    M State unit :=
  modify (on_SIGNALS (setdefault signal []));;
  modify (on_SIGNALS (alter (fun fns => fns ++ [handler]) signal)).

(** The call [fn(data)]. *)
Definition call_handler (data : option Result) (fn : SignalHandler) :
    M State unit :=
  modify (on_trace (fun tr => tr ++ [Call (handler_id fn) data]));;
  modify (on_ui (handler_call fn data)).

Definition send_signal (signal : Signals) (data : option Result) :
    M State unit :=
  w ← get;
  match _SIGNALS w !! signal with
  | None =>
      logging_debug ("No handler registered for " +:+ Signals_str signal)
  | Some fns => for_each fns (call_handler data)
  end.

(** *** Task *)

(** [Task.task_id] (getter) *)
Definition task_id (self : nat) : M State (option UUID) :=
  w ← get;
  mret (_task_id (heap w !!! self)).

(** [Task.task_id] (setter) *)
Definition task_id_set (self : nat) (value : UUID) : M State unit :=
  w ← get;
  match _task_id (heap w !!! self) with
  | Some _ =>
      raise (NotImplementedError
               "Invalid usage, Task.task_id should only set once")
  | None => modify (on_heap (alter (with_task_id (Some value)) self))
  end.

(** [Task.subtitle] (getter) *)
Definition subtitle (self : nat) : M State string :=
  w ← get;
  mret (_subtitle (heap w !!! self)).

(** [Task.subtitle] (setter) *)
Definition subtitle_set (self : nat) (value : string) : M State unit :=
  modify (on_heap (alter (with_subtitle value) self));;
  id ← task_id self;
  send_signal TaskUpdated (Some (mkResult true (value_of_id id))).

(** [Task.__init__]: a new object, whose attributes are the class
    attributes until the body assigns them. *)
Definition Task_init (title subtitle : string) (hidden cancellable : bool) :
    M State nat :=
  w ← get;
  let self := fresh (dom (heap w)) in
  modify (on_heap (insert self Task_class));;
  modify (on_heap (alter (with_title title) self));;
  subtitle_set self subtitle;;
  modify (on_heap (alter (with_hidden hidden) self));;
  modify (on_heap (alter (with_cancellable cancellable) self));;
  mret self.

(** *** TaskManager *)

Definition get_task (task_id : UUID) : M State (option nat) :=
  w ← get;
  mret (_TASKS w !! task_id).

Definition add_task (task : nat) : M State UUID :=
  uniq ← uuid4;
  task_id_set task uniq;;
  modify (on_TASKS (insert uniq task));;
  id ← task_id task;
  send_signal TaskAdded (Some (mkResult true (value_of_id id)));;
  mret uniq.

(** [remove_task(task: Union[UUID, Task])]; [dict.pop] raises [KeyError]
    for a key that is not there. *)
Definition remove_task (task : UUID + nat) : M State unit :=
  key ← match task with
        | inr t => id ← task_id t; mret (value_of_id id)
        | inl u => mret (VUuid u)
        end;
  w ← get;
  match key with
  | VUuid u =>
      match _TASKS w !! u with
      | Some _ => modify (on_TASKS (delete u))
      | None => raise (KeyError key)
      end
  | _ => raise (KeyError key)
  end;;
  send_signal TaskRemoved (Some (mkResult true key)).

(** The value pattern [Status.X] compares with [==]. *)
Definition is_Status (s : Status) (v : value) : bool :=
  match v with
  | VStatus s' =>
      match s, s' with
      | RUNNING, RUNNING | DONE, DONE | FAILED, FAILED => true
      | _, _ => false
      end
  | _ => false
  end.

(** [case Status.DONE, Status.FAILED:] is a sequence pattern: it matches
    a sequence of exactly two items, the first equal to [Status.DONE] and
    the second to [Status.FAILED]. *)
Definition case_DONE_FAILED (subject : value) : bool :=
  match subject with
  | VTuple [x; y] | VList [x; y] => is_Status DONE x && is_Status FAILED y
  | _ => false
  end.

Definition stream_update (self : nat) (received_size total_size : Z)
    (status : value) : M State unit :=
  if case_DONE_FAILED status then remove_task (inr self)
  else if (total_size =? 0)%Z && (received_size =? 0)%Z then
    subtitle_set self (gettext "Calculating…")
  else
    match percent_of received_size total_size with
    | inl e => raise e
    | inr percent => subtitle_set self (pretty percent +:+ "%")
    end.

(** *** LockManager *)

Definition get_lock (name : Locks) : M State Locks :=
  modify (on_LOCKS (setdefault name false));;
  mret name.

(** [threading.Lock.acquire()]: blocks while the lock is held. *)
Definition acquire (lock : Locks) : M State unit :=
  w ← get;
  match _LOCKS w !! lock with
  | Some true => block
  | _ => modify (on_LOCKS (insert lock true))
  end.

(** [threading.Lock.release()]: [RuntimeError] on an unlocked lock. *)
Definition release (lock : Locks) : M State unit :=
  w ← get;
  match _LOCKS w !! lock with
  | Some true => modify (on_LOCKS (insert lock false))
  | _ => raise RuntimeError
  end.

(** [LockManager.lock(name)]: the lock is looked up when the decorator is
    built; [wrapper] is what a decorated function becomes. *)
Definition lock {A R} (name : Locks) :
    M State ((A -> M State R) -> A -> M State R) :=
  lock ← get_lock name;
  mret (fun func args =>
          acquire lock;;
          rv ← func args;
          release lock;;
          mret rv).

(** *** Notions used in the statements *)

(** The handlers registered for a signal, in the order of the list the
    dictionary holds. *)
Definition registered (w : State) (signal : Signals) :
    list SignalHandler :=
  default [] (_SIGNALS w !! signal).

(** A sequence of [connect_signal] calls. *)
Definition connect_all (regs : list (Signals * SignalHandler)) :
    M State unit :=
  for_each regs (fun r => connect_signal r.1 r.2).

(** The handlers a sequence of registrations gives to a signal. *)
Definition handlers_for (signal : Signals)
    (regs : list (Signals * SignalHandler)) : list SignalHandler :=
  (filter (fun r => r.1 = signal) regs).*2.

(** The calls [fn(data)] for the handlers [fns], in order. *)
Definition calls (data : option Result) (fns : list SignalHandler) :
    list event :=
  map (fun fn => Call (handler_id fn) data) fns.

(** What the handlers [fns], called in order with [data], make of the
    frontend state. *)
Definition handled (data : option Result) (fns : list SignalHandler)
    (u : UI) : UI :=
  foldl (fun u fn => handler_call fn data u) u fns.

(** What subscribers and the log can observe of a state. *)
Definition observable (w : State) : list event * UI := (trace w, ui w).

(** A sequence of assignments [task.subtitle = value]. *)
Definition set_subtitles (self : nat) (values : list string) :
    M State unit :=
  for_each values (subtitle_set self).

(** What those assignments leave in the object store. *)
Definition assign_subtitles (self : nat) (values : list string)
    (h : gmap nat Task) : gmap nat Task :=
  foldl (fun h value => alter (with_subtitle value) self h) h values.

(** [n] publications of a signal with the same payload. *)
Definition publish (n : nat) (signal : Signals) (data : option Result)
    (w : State) : State :=
  Nat.iter n (exec (send_signal signal data)) w.

(** The events one publication appends to the trace. *)
Definition publication (w : State) (signal : Signals)
    (data : option Result) : list event :=
  match _SIGNALS w !! signal with
  | None =>
      [Log DEBUG ("No handler registered for " +:+ Signals_str signal)]
  | Some fns => calls data fns
  end.

(** No signal is mapped to an empty handler list. *)
Definition no_empty_entry (w : State) : Prop :=
  forall signal, _SIGNALS w !! signal <> Some [].

(** Two states with the same signal bus: the same handlers, trace and
    frontend state. *)
Definition same_bus (w w' : State) : Prop :=
  _SIGNALS w = _SIGNALS w' /\ trace w = trace w' /\ ui w = ui w'.

(** Every registered identifier was drawn by an earlier [uuid4()]. *)
Definition ids_drawn (w : State) : Prop :=
  forall u, is_Some (_TASKS w !! u) ->
    exists i, i < uuid4_calls w /\ u = uuid4_source i.

(** Decorating [func] with [lock(name)] and calling the result. *)
Definition locked_call {A R} (name : Locks) (func : A -> M State R)
    (args : A) : M State R :=
  decorate ← lock name;
  decorate func args.

(** The life of a task: constructed, its subtitle assigned some times,
    registered, its subtitle assigned some more times. *)
Definition lifecycle (title subtitle : string) (hidden cancellable : bool)
    (before after : list string) : M State nat :=
  self ← Task_init title subtitle hidden cancellable;
  set_subtitles self before;;
  add_task self;;
  set_subtitles self after;;
  mret self.

(** The identifier [remove_task] looks up: the one given, or the one the
    given task carries. *)
Definition resolve (w : State) (task : UUID + nat) : option UUID :=
  match task with
  | inl u => Some u
  | inr t => _task_id (heap w !!! t)
  end.

(** The calls a client of [State] and of its tasks can make. *)
Inductive call :=
  | Call_Task (title subtitle : string) (hidden cancellable : bool)
  | Call_subtitle_set (self : nat) (value : string)
  | Call_task_id_set (self : nat) (value : UUID)
  | Call_stream_update (self : nat) (received_size total_size : Z)
      (status : value)
  | Call_add_task (task : nat)
  | Call_remove_task (task : UUID + nat)
  | Call_get_task (task_id : UUID)
  | Call_connect_signal (signal : Signals) (handler : SignalHandler)
  | Call_send_signal (signal : Signals) (data : option Result)
  | Call_get_lock (name : Locks).

Definition run_call (c : call) : M State unit :=
  match c with
  | Call_Task title subtitle hidden cancellable =>
      Task_init title subtitle hidden cancellable;; mret tt
  | Call_subtitle_set self value => subtitle_set self value
  | Call_task_id_set self value => task_id_set self value
  | Call_stream_update self received_size total_size status =>
      stream_update self received_size total_size status
  | Call_add_task task => add_task task;; mret tt
  | Call_remove_task task => remove_task task
  | Call_get_task task_id => get_task task_id;; mret tt
  | Call_connect_signal signal handler => connect_signal signal handler
  | Call_send_signal signal data => send_signal signal data
  | Call_get_lock name => get_lock name;; mret tt
  end.

(** The state after a sequence of calls; a call that raises leaves the
    state it had reached and the client goes on. *)
Definition run_calls (cs : list call) (w : State) : State :=
  foldl (fun w c => exec (run_call c) w) w cs.

(** The task objects a call is given exist. *)
Definition refs_allocated (w : State) (c : call) : Prop :=
  match c with
  | Call_subtitle_set self _ | Call_task_id_set self _
  | Call_stream_update self _ _ _ | Call_add_task self
  | Call_remove_task (inr self) => is_Some (heap w !! self)
  | _ => True
  end.

(** The states a client can reach from a given one. *)
Inductive reachable (w0 : State) : State -> Prop :=
  | reachable_start : reachable w0 w0
  | reachable_call w c :
      reachable w0 w -> refs_allocated w c ->
      reachable w0 (exec (run_call c) w).

(** Every registered task carries the identifier it is registered
    under. *)
Definition registry_consistent (w : State) : Prop :=
  forall u t, _TASKS w !! u = Some t -> _task_id (heap w !!! t) = Some u.
End State.

(** *** Sample inputs *)

Definition sample_source (n : nat) : UUID := N.of_nat (100 + n).

(** Handlers that count their calls. *)
Definition sample_handler (id : nat) : @SignalHandler nat :=
  mkHandler id (fun _ u => S u).

Definition sample_regs : list (Signals * @SignalHandler nat) :=
  [(TaskUpdated, sample_handler 1); (TaskAdded, sample_handler 2);
   (TaskUpdated, sample_handler 3)].

Definition sample_State : @State nat :=
  exec (connect_all sample_regs) (State_loaded 0).

(** A state with one task, object [0], not registered yet. *)
Definition sample_constructed : @State nat :=
  exec (Task_init "Installing" "" false false) sample_State.

(** A decorated function that raises. *)
Definition sample_failing (_ : unit) : M (@State nat) nat :=
  raise (OtherError "install failed").

(** A decorated function that returns. *)
Definition sample_job (n : nat) : M (@State nat) nat :=
  modify (on_ui (fun u => u + n));; mret (2 * n).

(** A state with one registered task, object [0]. *)
Definition sample_registered : @State nat :=
  exec (self ← Task_init "Installing" "" false false;
        add_task sample_source self) sample_State.

(** That state with a second task, object [1], not registered yet. *)
Definition sample_second : @State nat :=
  exec (Task_init "Updating" "" false true) sample_registered.
End StatePy.

(** * bottles/backend/repos/repo.py *)
Module RepoPy.

(** A [Repo] object: [name] is the class attribute (empty in [Repo],
    overridden by its subclasses), [url] and [catalog] are set by
    [__init__]. *)
Record Repo := mkRepo {
  name : string;
  url : string;
  catalog : value
}.

#[global] Instance Repo_inhabited : Inhabited Repo :=
  populate {| name := ""; url := ""; catalog := VNone |}.

Definition with_catalog (v : value) (r : Repo) : Repo :=
  {| name := name r; url := url r; catalog := v |}.

(** How the pycurl calls of a fetch end: an exception raised while the
    handle is created and its options are set ([pycurl.Curl()],
    [c.setopt(c.URL, location)], which raises [UnicodeEncodeError] for a
    location it cannot encode), before any transfer is made; an exception
    raised by the transfer [c.perform()]; or the body received. *)
Inductive transfer :=
  | Rejected (e : exn)
  | Failed (e : exn)
  | Received (body : list Byte.byte).

(** What the trace records: a Logger call, a transfer [c.perform()] for a
    URL, or the call [callback()] of a completion callback. *)
Inductive event :=
  | Log (lvl : level) (msg : string)
  | Perform (location : string)
  | Callback.

Section Repo.
(** The state the completion callbacks act on. *)
Context {U : Type}.

(** The [Repo] objects, [RepoStatus.EVENTS] (an event is [true] while
    set), the trace and the callbacks' state. *)
Record World := mkWorld {
  heap : gmap nat Repo;
  EVENTS : gmap string bool;
  trace : list event;
  user : U
}.

Definition on_heap (f : gmap nat Repo -> gmap nat Repo) (w : World) :=
  {| heap := f (heap w); EVENTS := EVENTS w; trace := trace w;
     user := user w |}.

Definition on_EVENTS (f : gmap string bool -> gmap string bool)
    (w : World) :=
  {| heap := heap w; EVENTS := f (EVENTS w); trace := trace w;
     user := user w |}.

Definition on_trace (f : list event -> list event) (w : World) :=
  {| heap := heap w; EVENTS := EVENTS w; trace := f (trace w);
     user := user w |}.

Definition on_user (f : U -> U) (w : World) :=
  {| heap := heap w; EVENTS := EVENTS w; trace := trace w;
     user := f (user w) |}.

(** The interpreter state when the module has just been loaded. *)
Definition World_loaded (u : U) : World :=
  {| heap := ∅; EVENTS := ∅; trace := []; user := u |}.

(** The HTTP transport (pycurl): what a GET of a location, following
    redirects, comes to. *)
Variable transport : string -> transfer.

(** [bottles.backend.utils.yaml.load] *)
Variable yaml_load : list Byte.byte -> exn + value.

(** [bytes.decode("utf-8")]; [None] where it raises
    [UnicodeDecodeError]. *)
Variable decode_utf8 : list Byte.byte -> option string.

Definition logging (lvl : level) (msg : string) : M World unit :=
  modify (on_trace (fun tr => tr ++ [Log lvl msg])).

(** *** RepoStatus *)

Definition repo_start_operation (name : string) : M World unit :=
  modify (on_EVENTS (setdefault name false));;
  modify (on_EVENTS (insert name false));;
  logging DEBUG ("Start operation " +:+ name).

Definition repo_done_operation (name : string) : M World unit :=
  modify (on_EVENTS (setdefault name false));;
  modify (on_EVENTS (insert name true));;
  logging DEBUG ("Done operation " +:+ name).

(** [threading.Event.wait()] returns at once when the event is set and
    blocks the caller otherwise. *)
Definition repo_wait_operation (name : string) : M World unit :=
  modify (on_EVENTS (setdefault name false));;
  w ← get;
  match EVENTS w !! name with
  | Some true => logging DEBUG ("Done wait operation " +:+ name)
  | _ => block
  end.

(** *** Repo *)

(** The transfer both fetches set up: [pycurl.Curl()], the three
    [setopt] calls, [perform()], [close()], and [buffer.getvalue()]. *)
Definition curl_get (location : string) : M World (list Byte.byte) :=
  match transport location with
  | Rejected e => raise e
  | Failed e =>
      modify (on_trace (fun tr => tr ++ [Perform location]));;
      raise e
  | Received body =>
      modify (on_trace (fun tr => tr ++ [Perform location]));;
      mret body
  end.

(** [except (pycurl.error, yaml.YAMLError)] *)
Definition fetch_errors (e : exn) : bool :=
  match e with
  | pycurl_error | YAMLError => true
  | _ => false
  end.

Definition self_name (self : nat) : M World string :=
  w ← get;
  mret (name (heap w !!! self)).

(** [index in ["", None]] *)
Definition empty_or_None (index : option string) : bool :=
  match index with
  | Some location => bool_decide (location = "")
  | None => true
  end.

Definition __get_catalog (self : nat) (index : option string)
    (offline : bool) : M World value :=
  name ← self_name self;
  repo_start_operation (name +:+ ".fetching");;
  if empty_or_None index || offline then mret (VDict [])
  else
    try_except
      (body ← curl_get (default "" index);
       match yaml_load body with
       | inl e => raise e
       | inr index =>
           logging INFO ("Catalog " +:+ name +:+ " loaded");;
           mret index
       end)
      fetch_errors
      (logging ERROR ("Cannot fetch " +:+ name +:+ " repository index.");;
       mret (VDict [])).

Definition get_manifest (self : nat) (url : string) (plain : bool) :
    M World value :=
  name ← self_name self;
  try_except
    (res ← curl_get url;
     if plain then
       match decode_utf8 res with
       | Some text => mret (VStr text)
       | None => raise UnicodeDecodeError
       end
     else
       match yaml_load res with
       | inl e => raise e
       | inr doc => mret doc
       end)
    fetch_errors
    (logging ERROR ("Cannot fetch " +:+ name +:+ " manifest.");;
     mret (VDict [])).

(** The call [callback()]. *)
Definition call_callback (callback : U -> U) : M World unit :=
  modify (on_trace (fun tr => tr ++ [Callback]));;
  modify (on_user callback).

(** The closure [set_catalog] of [__init__]; [if callback:] skips a
    callback that is [None]. *)
Definition set_catalog (self : nat) (callback : option (U -> U))
    (result : value) (_error : option exn) : M World unit :=
  modify (on_heap (alter (with_catalog result) self));;
  name ← self_name self;
  repo_done_operation (name +:+ ".fetching");;
  match callback with
  | Some callback => call_callback callback
  | None => mret tt
  end.

(** Modelled from the spec: the async task runner
    ([bottles.frontend.utils.threading.RunAsync], not among the sources)
    "accepts a unit of work plus a completion callback and argument bag;
    executes the work off the calling context; invokes the callback with
    (result, error) on completion". [RunAsync] is the body of the thread it
    starts; the caller goes on without running it. *)
Definition RunAsync (task_func : M World value)
    (callback : value -> option exn -> M World unit) : M World unit :=
  fun w =>
    match task_func w with
    | (Ret result, w') => callback result None w'
    | (Raise e, w') => callback VNone (Some e) w'
    | (Block, w') => (Block, w')
    end.

(** [Repo.__init__] for a class whose [name] attribute is [cls_name]:
    returns the new object and the thread it has started. *)
Definition Repo_init (cls_name : string) (url : string)
    (index : option string) (offline : bool)
    (callback : option (U -> U)) : M World (nat * M World unit) :=
  w ← get;
  let self := fresh (dom (heap w)) in
  modify (on_heap (insert self
                     {| name := cls_name; url := url; catalog := VNone |}));;
  mret (self,
        RunAsync (__get_catalog self index offline)
                 (set_catalog self callback)).

(** *** Notions used in the statements *)

(** The thread [Repo.__init__] starts for the object [self]. *)
Definition fetch_thread (self : nat) (index : option string)
    (offline : bool) (callback : option (U -> U)) : M World unit :=
  RunAsync (__get_catalog self index offline) (set_catalog self callback).

(** The calls made on [RepoStatus], by any thread. *)
Inductive operation :=
  | Start (name : string)
  | Complete (name : string)
  | Await (name : string).

Definition run (o : operation) : M World unit :=
  match o with
  | Start name => repo_start_operation name
  | Complete name => repo_done_operation name
  | Await name => repo_wait_operation name
  end.

(** The state after a sequence of such calls; a call that blocks leaves
    its caller waiting and the others go on. *)
Definition after (ops : list operation) (w : World) : World :=
  foldl (fun w o => exec (run o) w) w ops.

(** The events a completion callback, when there is one, adds. *)
Definition callback_calls (callback : option (U -> U)) : list event :=
  match callback with
  | Some _ => [Callback]
  | None => []
  end.

Definition callback_effect (callback : option (U -> U)) (u : U) : U :=
  match callback with
  | Some f => f u
  | None => u
  end.

(** What downloading a location and parsing the body yields. *)
Definition fetched (location : string) : exn + value :=
  match transport location with
  | Rejected e | Failed e => inl e
  | Received body => yaml_load body
  end.

(** The transfers a fetch of a location makes: one, unless the location
    is rejected before. *)
Definition transfers (location : string) : list event :=
  match transport location with
  | Rejected _ => []
  | Failed _ | Received _ => [Perform location]
  end.

(** The gate a call of [RepoStatus] sets or clears, if any. *)
Definition switches (o : operation) : option string :=
  match o with
  | Start name | Complete name => Some name
  | Await _ => None
  end.

(** Whether a gate is set; a gate that does not exist is not. *)
Definition is_set (w : World) (name : string) : bool :=
  default false (EVENTS w !! name).
End Repo.

(** *** Sample inputs *)

(** A transport that always raises a transport error. *)
Definition sample_down (location : string) : transfer :=
  Failed pycurl_error.

Definition sample_yaml_load (body : list Byte.byte) : exn + value :=
  inr (VDict []).

Definition sample_decode (body : list Byte.byte) : option string :=
  Some "".

(** A transport that serves one document. *)
Definition sample_up (location : string) : transfer :=
  Received [Byte.x61; Byte.x3a; Byte.x20; Byte.x62].

(** A parser that accepts that document. *)
Definition sample_parse (body : list Byte.byte) : exn + value :=
  match body with
  | [Byte.x61; Byte.x3a; Byte.x20; Byte.x62] =>
      inr (VDict [(VStr "a", VStr "b")])
  | _ => inl YAMLError
  end.

(** A parser that rejects every document. *)
Definition sample_reject (body : list Byte.byte) : exn + value :=
  inl YAMLError.

(** A transport that cannot encode the location it is given. *)
Definition sample_broken (location : string) : transfer :=
  Rejected UnicodeEncodeError.

(** A decoder that rejects every body. *)
Definition sample_undecodable (body : list Byte.byte) : option string :=
  None.

(** A state with one [Repo] object, [0], of a class named ["components"]. *)
Definition sample_World : @World nat :=
  {| heap := {[ 0 := {| name := "components"; url := "https://repo.example";
                        catalog := VDict [] |} ]};
     EVENTS := ∅; trace := []; user := 0 |}.
End RepoPy.

(** * Python arithmetic: the percentage of [stream_update] *)

Example percent_of_half : percent_of 50 100 = inr 50%Z.
Proof. reflexivity. Qed.

Example percent_of_rounds_down : percent_of 29 100 = inr 28%Z.
Proof. reflexivity. Qed.

Example percent_of_third : percent_of 1 3 = inr 33%Z.
Proof. reflexivity. Qed.

Example percent_of_zero_total : percent_of 1 0 = inl ZeroDivisionError.
Proof. reflexivity. Qed.

Example percent_of_overflow : percent_of (2 ^ 1100) 1 = inl OverflowError.
Proof. reflexivity. Qed.

Lemma div_eucl_shiftl_self p :
  Z.div_eucl (Z.shiftl (Zpos p) 53) (Zpos p) = ((2 ^ 53)%Z, 0%Z).
Proof.
  rewrite Z.shiftl_mul_pow2 by lia.
  assert (Hd : (Zpos p * 2 ^ 53 / Zpos p = 2 ^ 53)%Z).
  { rewrite Z.mul_comm. apply Z.div_mul. lia. }
  assert (Hm : ((Zpos p * 2 ^ 53) mod Zpos p = 0)%Z).
  { rewrite Z.mul_comm. apply Z.mod_mul. lia. }
  unfold Z.div, Z.modulo in Hd, Hm.
  destruct (Z.div_eucl (Zpos p * 2 ^ 53) (Zpos p)) as [q r].
  simpl in *. congruence.
Qed.

(** The quotient of an int by itself is exactly [1.0]. *)
Lemma int_truediv_self p :
  int_truediv (Zpos p) (Zpos p) =
    inr (S754_finite false 4503599627370496 (-52)).
Proof.
  unfold int_truediv. cbn [Z.eqb float_of_int_exact].
  unfold SFdiv, SFdiv_core_binary.
  replace (Zdigits2 (Z.pos p) + 0 - (Zdigits2 (Z.pos p) + 0))%Z with 0%Z
    by lia.
  change (Z.min (fexp 53 1024 0) (0 - 0)) with (-53)%Z.
  change (0 - 0 - -53)%Z with 53%Z.
  cbv beta iota zeta.
  rewrite div_eucl_shiftl_self.
  assert (Hl : new_location (Z.pos p) 0 = loc_Exact).
  { unfold new_location. destruct (Z.even (Z.pos p)); reflexivity. }
  rewrite Hl. vm_compute. reflexivity.
Qed.

Lemma percent_of_complete p : percent_of (Zpos p) (Zpos p) = inr 100%Z.
Proof. unfold percent_of. rewrite int_truediv_self. reflexivity. Qed.

Lemma percent_of_nothing total_size :
  total_size <> 0%Z -> percent_of 0 total_size = inr 0%Z.
Proof.
  intros H. unfold percent_of, int_truediv.
  destruct (Z.eqb_spec total_size 0) as [|_]; [done|].
  by destruct total_size.
Qed.

Ltac unfold_monad :=
  unfold mbind, mret, M_bind, M_ret, bind, ret, raise, block, get, modify,
    exec, ends in *.

(** * Properties of bottles/backend/state.py *)
Module StateTheory.
Import StatePy.

Section SignalManager.
Context {UI : Type}.
Implicit Types (w : @State UI) (fn : @SignalHandler UI).

Lemma for_each_call_handler data fns w :
  for_each fns (call_handler data) w =
    (Ret tt, on_ui (handled data fns) (on_trace (fun tr => tr ++ calls data fns) w)).
Proof.
  revert w. induction fns as [|fn fns IH]; intros [h l t s n tr u]; simpl.
  - unfold ret, on_ui, on_trace; simpl. by rewrite app_nil_r.
  - unfold call_handler. unfold_monad. simpl. rewrite IH.
    unfold on_ui, on_trace; simpl. by rewrite <- app_assoc.
Qed.

(** One publication: what [send_signal] does to a state. *)
Lemma send_signal_spec signal data w :
  send_signal signal data w =
    (Ret tt,
     match _SIGNALS w !! signal with
     | None =>
         on_trace (fun tr => tr ++
           [Log DEBUG ("No handler registered for " +:+ Signals_str signal)]) w
     | Some fns =>
         on_ui (handled data fns) (on_trace (fun tr => tr ++ calls data fns) w)
     end).
Proof.
  unfold send_signal. unfold_monad.
  destruct (_SIGNALS w !! signal) as [fns|]; [|done].
  apply for_each_call_handler.
Qed.

Lemma connect_signal_spec signal fn w :
  connect_signal signal fn w =
    (Ret tt, on_SIGNALS (insert signal (registered w signal ++ [fn])) w).
Proof.
  unfold connect_signal, registered. unfold_monad. simpl. f_equal.
  destruct w as [h l t s n tr u]; unfold on_SIGNALS; simpl. f_equal.
  apply map_eq; intros k. unfold setdefault.
  destruct (decide (k = signal)) as [->|Hne].
  - rewrite lookup_insert_eq. destruct (s !! signal) as [fns|] eqn:E; simpl.
    + by rewrite lookup_alter_eq, E.
    + by rewrite lookup_alter_eq, lookup_insert_eq.
  - rewrite lookup_insert_ne by done. rewrite lookup_alter_ne by done.
    destruct (s !! signal); [done|]. by rewrite lookup_insert_ne.
Qed.

Lemma connect_all_spec regs w :
  exists w',
    connect_all regs w = (Ret tt, w') /\
    (forall signal,
       registered w' signal = registered w signal ++ handlers_for signal regs) /\
    (no_empty_entry w -> no_empty_entry w') /\
    heap w' = heap w /\ _LOCKS w' = _LOCKS w /\ _TASKS w' = _TASKS w /\
    uuid4_calls w' = uuid4_calls w /\ trace w' = trace w /\ ui w' = ui w.
Proof.
  revert w. induction regs as [|[k fn] regs IH]; intros w.
  - exists w. split; [done|]. split; [|done].
    intros signal. unfold handlers_for. simpl. by rewrite app_nil_r.
  - unfold connect_all. simpl. unfold_monad. rewrite connect_signal_spec.
    set (w1 := on_SIGNALS _ w).
    destruct (IH w1) as (w' & Hrun & Hreg & Hne & Hrest).
    exists w'. split; [exact Hrun|]. split; [|split].
    + intros signal. rewrite Hreg. unfold handlers_for.
      rewrite filter_cons. unfold registered at 1. subst w1; simpl.
      destruct (decide (k = signal)) as [->|Hk]; simpl.
      * rewrite lookup_insert_eq. simpl. by rewrite <- app_assoc.
      * by rewrite lookup_insert_ne by done.
    + intros Hw. apply Hne. intros signal. subst w1; simpl.
      destruct (decide (k = signal)) as [->|Hk].
      * rewrite lookup_insert_eq. intros [=E]. by destruct (registered w signal).
      * rewrite lookup_insert_ne by done. apply Hw.
    + exact Hrest.
Qed.

(** C9: for every signal kind and every sequence of [connect_signal]
    registrations made from the empty registry, [send_signal] for that
    kind returns normally after calling every handler registered for the
    kind exactly once, in registration order, each with the same payload;
    for a kind with no registered handler it returns normally and calls
    no handler: it only logs at debug level. *)
Theorem send_signal_dispatch (w : @State UI)
    (regs : list (Signals * SignalHandler)) (signal : Signals)
    (data : option Result) :
  _SIGNALS w = ∅ ->
  let w1 := exec (connect_all regs) w in
  let fns := handlers_for signal regs in
  ends (connect_all regs) w = Ret tt /\
  registered w1 signal = fns /\
  ends (send_signal signal data) w1 = Ret tt /\
  exec (send_signal signal data) w1 =
    match fns with
    | [] =>
        on_trace (fun tr => tr ++
          [Log DEBUG ("No handler registered for " +:+ Signals_str signal)])
          w1
    | _ :: _ =>
        on_ui (handled data fns)
          (on_trace (fun tr => tr ++ calls data fns) w1)
    end.
Proof.
  intros Hempty w1 fns. subst w1.
  destruct (connect_all_spec regs w) as (w1 & Hrun & Hreg & Hne & _).
  unfold ends, exec. rewrite Hrun. simpl.
  assert (Hfns : registered w1 signal = fns).
  { rewrite Hreg. unfold registered. by rewrite Hempty, lookup_empty. }
  assert (Hw1 : no_empty_entry w1).
  { apply Hne. intros k. by rewrite Hempty, lookup_empty. }
  rewrite send_signal_spec. simpl. repeat split; [exact Hfns|].
  unfold registered in Hfns. specialize (Hw1 signal).
  destruct (_SIGNALS w1 !! signal) as [l|]; simpl in Hfns; subst fns.
  - rewrite <- Hfns. destruct l; [done|done].
  - by rewrite <- Hfns.
Qed.
End SignalManager.

Section Task.
Context {UI : Type}.
Variable uuid4_source : nat -> UUID.
Variable gettext : string -> string.
Implicit Types (w : @State UI) (h : gmap nat Task).

Lemma send_signal_on_heap f signal data w :
  exec (send_signal signal data) (on_heap f w) =
    on_heap f (exec (send_signal signal data) w).
Proof.
  unfold exec. rewrite !send_signal_spec. simpl.
  by destruct (_SIGNALS w !! signal).
Qed.

Lemma send_signal_heap signal data w :
  heap (exec (send_signal signal data) w) = heap w.
Proof.
  unfold exec. rewrite send_signal_spec. simpl.
  by destruct (_SIGNALS w !! signal).
Qed.

Lemma publish_on_heap f n signal data w :
  publish n signal data (on_heap f w) = on_heap f (publish n signal data w).
Proof.
  unfold publish. induction n as [|n IH]; [done|].
  simpl. by rewrite IH, send_signal_on_heap.
Qed.

Lemma publish_SIGNALS n signal data w :
  _SIGNALS (publish n signal data w) = _SIGNALS w.
Proof.
  unfold publish. induction n as [|n IH]; [done|].
  simpl. unfold exec at 1. rewrite send_signal_spec. simpl.
  by destruct (_SIGNALS _ !! signal).
Qed.

Lemma publish_trace n signal data w :
  trace (publish n signal data w) =
    trace w ++ mjoin (replicate n (publication w signal data)).
Proof.
  induction n as [|n IH]; simpl.
  - by rewrite app_nil_r.
  - change (publish (S n) signal data w)
      with (exec (send_signal signal data) (publish n signal data w)).
    unfold exec. rewrite send_signal_spec. simpl.
    rewrite publish_SIGNALS.
    replace (publication w signal data ++
             mjoin (replicate n (publication w signal data)))
      with (mjoin (replicate n (publication w signal data)) ++
            publication w signal data).
    + rewrite app_assoc, <- IH. unfold publication.
      by destruct (_SIGNALS w !! signal).
    + clear. induction n as [|n IH]; simpl; [by rewrite app_nil_r|].
      by rewrite <- app_assoc, IH.
Qed.

Lemma task_id_alter h self g :
  (forall t, _task_id (g t) = _task_id t) ->
  _task_id (alter g self h !!! self) = _task_id (h !!! self).
Proof.
  intros Hg. unfold lookup_total, map_lookup_total.
  rewrite lookup_alter_eq. destruct (h !! self); simpl; [apply Hg|done].
Qed.

Lemma task_id_assign_subtitles self values h :
  _task_id (assign_subtitles self values h !!! self) = _task_id (h !!! self).
Proof.
  revert h. induction values as [|v values IH]; intros h; [done|].
  simpl. rewrite IH. by apply task_id_alter.
Qed.

(** One assignment is one publication, with the identifier the task has
    at that moment. *)
Lemma subtitle_set_spec self value w :
  subtitle_set self value w =
    (Ret tt,
     on_heap (alter (with_subtitle value) self)
       (exec (send_signal TaskUpdated
                (Some (mkResult true (value_of_id (_task_id (heap w !!! self))))))
             w)).
Proof.
  unfold subtitle_set, task_id. unfold_monad. simpl.
  rewrite task_id_alter by done.
  rewrite (surjective_pairing (send_signal _ _ _)).
  rewrite send_signal_spec at 1. simpl. f_equal.
  apply (send_signal_on_heap _ TaskUpdated).
Qed.

Lemma set_subtitles_spec self values w :
  set_subtitles self values w =
    (Ret tt,
     on_heap (assign_subtitles self values)
       (publish (length values) TaskUpdated
          (Some (mkResult true (value_of_id (_task_id (heap w !!! self)))))
          w)).
Proof.
  revert w. induction values as [|v values IH]; intros w.
  - by destruct w.
  - unfold set_subtitles. simpl. unfold bind.
    rewrite subtitle_set_spec. fold (@set_subtitles UI self values).
    rewrite IH. simpl. rewrite task_id_alter by done.
    f_equal. rewrite publish_on_heap.
    unfold publish. rewrite send_signal_heap, <- Nat.iter_succ_r.
    simpl. by destruct (exec _ _).
Qed.

Lemma same_bus_refl w : same_bus w w.
Proof. by repeat split. Qed.

Lemma same_bus_trans w1 w2 w3 :
  same_bus w1 w2 -> same_bus w2 w3 -> same_bus w1 w3.
Proof. intros (?&?&?) (?&?&?). repeat split; congruence. Qed.

Lemma same_bus_observable w w' : same_bus w w' -> observable w = observable w'.
Proof. intros (_&Ht&Hu). unfold observable. by rewrite Ht, Hu. Qed.

Lemma send_signal_same_bus signal data w w' :
  same_bus w w' ->
  same_bus (exec (send_signal signal data) w)
           (exec (send_signal signal data) w').
Proof.
  intros (Hs&Ht&Hu). unfold exec. rewrite !send_signal_spec. simpl.
  rewrite <- Hs. destruct (_SIGNALS w !! signal); simpl;
    repeat split; simpl; congruence.
Qed.

Lemma publish_same_bus n signal data w w' :
  same_bus w w' ->
  same_bus (publish n signal data w) (publish n signal data w').
Proof.
  intros H. unfold publish. induction n as [|n IH]; [done|].
  simpl. by apply send_signal_same_bus.
Qed.

Lemma same_bus_on_heap f w : same_bus (on_heap f w) w.
Proof. by repeat split. Qed.

Lemma same_bus_on_TASKS f w : same_bus (on_TASKS f w) w.
Proof. by repeat split. Qed.

Lemma same_bus_on_uuid4_calls f w : same_bus (on_uuid4_calls f w) w.
Proof. by repeat split. Qed.

Lemma Task_init_spec title subtitle hidden cancellable w :
  let self := fresh (dom (heap w)) in
  Task_init title subtitle hidden cancellable w =
    (Ret self,
     on_heap (insert self (mkTask None title subtitle hidden cancellable))
       (exec (send_signal TaskUpdated (Some (mkResult true VNone))) w)).
Proof.
  intros self. unfold Task_init. unfold_monad. simpl. fold self.
  rewrite subtitle_set_spec. simpl.
  assert (Hid : _task_id (alter (with_title title) self
                    (<[self:=Task_class]> (heap w)) !!! self) = None).
  { rewrite task_id_alter by done. unfold lookup_total, map_lookup_total.
    by rewrite lookup_insert_eq. }
  rewrite Hid. simpl. f_equal.
  unfold exec. rewrite !send_signal_spec. simpl. clearbody self.
  assert (Hheap : forall h,
    alter (with_cancellable cancellable) self
      (alter (with_hidden hidden) self
         (alter (with_subtitle subtitle) self
            (alter (with_title title) self (<[self:=Task_class]> h)))) =
    <[self:=mkTask None title subtitle hidden cancellable]> h).
  { intros h. apply map_eq; intros k.
    destruct (decide (k = self)) as [->|Hne].
    - by rewrite !lookup_alter_eq, !lookup_insert_eq.
    - by rewrite !lookup_alter_ne, !lookup_insert_ne. }
  destruct w as [h l t s n tr u]; simpl.
  destruct (s !! TaskUpdated); unfold on_heap; simpl; by rewrite Hheap.
Qed.

Lemma add_task_unassigned task w :
  is_Some (heap w !! task) ->
  _task_id (heap w !!! task) = None ->
  let uniq := uuid4_source (uuid4_calls w) in
  add_task uuid4_source task w =
    (Ret uniq,
     exec (send_signal TaskAdded (Some (mkResult true (VUuid uniq))))
       (on_TASKS (insert uniq task)
          (on_heap (alter (with_task_id (Some uniq)) task)
             (on_uuid4_calls S w)))).
Proof.
  intros [t Ht] Hid uniq. unfold add_task, uuid4, task_id_set, task_id.
  unfold_monad. simpl. rewrite Hid. simpl.
  unfold lookup_total, map_lookup_total.
  rewrite lookup_alter_eq, Ht. simpl. fold uniq.
  rewrite (surjective_pairing (send_signal _ _ _)).
  by rewrite send_signal_spec at 1.
Qed.

Lemma add_task_assigned task old w :
  _task_id (heap w !!! task) = Some old ->
  add_task uuid4_source task w =
    (Raise (NotImplementedError
              "Invalid usage, Task.task_id should only set once"),
     on_uuid4_calls S w).
Proof.
  intros Hid. unfold add_task, uuid4, task_id_set. unfold_monad. simpl.
  by rewrite Hid.
Qed.

Lemma publish_frame n signal data w :
  heap (publish n signal data w) = heap w /\
  _TASKS (publish n signal data w) = _TASKS w /\
  _LOCKS (publish n signal data w) = _LOCKS w /\
  uuid4_calls (publish n signal data w) = uuid4_calls w.
Proof.
  unfold publish. induction n as [|n IH]; [done|].
  simpl. unfold exec at 1 3 5 7. rewrite send_signal_spec. simpl.
  by destruct (_SIGNALS _ !! signal).
Qed.

Lemma publish_ui n signal data w :
  ui (publish n signal data w) =
    Nat.iter n (handled data (registered w signal)) (ui w).
Proof.
  induction n as [|n IH]; [done|].
  change (publish (S n) signal data w)
    with (exec (send_signal signal data) (publish n signal data w)).
  unfold exec. rewrite send_signal_spec. simpl. rewrite publish_SIGNALS.
  unfold registered in *.
  destruct (_SIGNALS w !! signal); simpl in *; by rewrite IH.
Qed.

Lemma publish_add n m signal data w :
  publish n signal data (publish m signal data w) =
    publish (m + n) signal data w.
Proof.
  unfold publish. rewrite Nat.add_comm. by rewrite Nat.iter_add.
Qed.

(** What one publication adds to the trace and makes of the frontend
    state. *)
Lemma send_signal_effect signal data w :
  trace (exec (send_signal signal data) w) =
    trace w ++ publication w signal data /\
  ui (exec (send_signal signal data) w) =
    handled data (registered w signal) (ui w).
Proof.
  unfold exec, publication, registered. rewrite send_signal_spec. simpl.
  by destruct (_SIGNALS w !! signal).
Qed.

Lemma publication_same_SIGNALS w w' signal data :
  _SIGNALS w' = _SIGNALS w ->
  publication w' signal data = publication w signal data /\
  registered w' signal = registered w signal.
Proof. intros H. unfold publication, registered. by rewrite H. Qed.

(** What one assignment of the subtitle does. *)
Lemma subtitle_set_effect self value w :
  let w' := exec (subtitle_set self value) w in
  ends (subtitle_set self value) w = Ret tt /\
  trace w' =
    trace w ++
    publication w TaskUpdated
      (Some (mkResult true (value_of_id (_task_id (heap w !!! self))))) /\
  (forall t, heap w !! self = Some t ->
     heap w' !! self = Some (with_subtitle value t)).
Proof.
  intros w'. subst w'. unfold ends, exec. rewrite subtitle_set_spec.
  cbn [fst snd trace heap on_heap].
  destruct (send_signal_effect TaskUpdated
    (Some (mkResult true (value_of_id (_task_id (heap w !!! self))))) w)
    as [Het _].
  split; [done|]. split; [exact Het|].
  intros t Ht. rewrite send_signal_heap, lookup_alter_eq, Ht. done.
Qed.

Lemma assign_subtitles_is_Some self values h :
  is_Some (h !! self) -> is_Some (assign_subtitles self values h !! self).
Proof.
  revert h. induction values as [|v values IH]; intros h Hh; [done|].
  simpl. apply IH. rewrite lookup_alter_eq. destruct Hh as [t ->]. by eexists.
Qed.

(** C8: for a task whose identifier is assigned, assigning its subtitle
    N times (any N, any strings) returns normally and is exactly N
    publications of [TaskUpdated], each with the task's identifier as
    payload: apart from the stored subtitle, the state is the one N calls
    [send_signal(Signals.TaskUpdated, Result(True, id))] produce, so the
    trace grows by N times the events of one such publication. The
    identifier does not change. *)
Theorem subtitle_mutations_publish self u values w :
  _task_id (heap w !!! self) = Some u ->
  let payload := Some (mkResult true (VUuid u)) in
  let w' := exec (set_subtitles self values) w in
  ends (set_subtitles self values) w = Ret tt /\
  w' = on_heap (assign_subtitles self values)
         (publish (length values) TaskUpdated payload w) /\
  trace w' = trace w ++
    mjoin (replicate (length values) (publication w TaskUpdated payload)) /\
  ui w' = Nat.iter (length values) (handled payload (registered w TaskUpdated))
            (ui w) /\
  _task_id (heap w' !!! self) = Some u.
Proof.
  intros Hid payload w'. subst w'. unfold ends, exec.
  rewrite set_subtitles_spec, Hid. simpl. fold payload.
  split; [done|]. split; [done|]. split; [apply publish_trace|].
  split.
  - apply publish_ui.
  - rewrite task_id_assign_subtitles.
    by rewrite (proj1 (publish_frame _ _ _ _)).
Qed.

(** C10: constructing a task returns the new object after exactly one
    publication of [TaskUpdated] whose payload identifier is [None]; over
    the life of a task (constructed, its subtitle assigned, registered,
    its subtitle assigned again) subscribers and the log observe, besides
    the one [TaskAdded], one [TaskUpdated] more than the subtitle was
    assigned after construction: [1 + length before] with [None], then
    [length after] with the identifier. *)
Theorem Task_lifecycle_updates title subtitle hidden cancellable
    before after w :
  let self := fresh (dom (heap w)) in
  let uniq := uuid4_source (uuid4_calls w) in
  let unassigned := Some (mkResult true VNone) in
  let assigned := Some (mkResult true (VUuid uniq)) in
  let construct := Task_init title subtitle hidden cancellable in
  let life :=
    lifecycle uuid4_source title subtitle hidden cancellable before after in
  ends construct w = Ret self /\
  _task_id (heap (exec construct w) !!! self) = None /\
  observable (exec construct w) =
    observable (publish 1 TaskUpdated unassigned w) /\
  ends life w = Ret self /\
  observable (exec life w) =
    observable
      (publish (length after) TaskUpdated assigned
         (publish 1 TaskAdded assigned
            (publish (1 + length before) TaskUpdated unassigned w))) /\
  trace (exec construct w) =
    trace w ++ publication w TaskUpdated unassigned /\
  ui (exec construct w) =
    handled unassigned (registered w TaskUpdated) (ui w) /\
  trace (exec life w) =
    trace w ++
    mjoin (replicate (1 + length before)
             (publication w TaskUpdated unassigned)) ++
    publication w TaskAdded assigned ++
    mjoin (replicate (length after) (publication w TaskUpdated assigned)) /\
  ui (exec life w) =
    Nat.iter (length after) (handled assigned (registered w TaskUpdated))
      (handled assigned (registered w TaskAdded)
         (Nat.iter (1 + length before)
            (handled unassigned (registered w TaskUpdated)) (ui w))).
Proof.
  intros self uniq unassigned assigned construct life.
  pose proof (Task_init_spec title subtitle hidden cancellable w) as Hinit.
  cbv zeta in Hinit. fold self unassigned construct in Hinit.
  remember (on_heap _ _) as w1 eqn:Hw1 in Hinit.
  assert (Hheap1 : heap w1 !! self =
                     Some (mkTask None title subtitle hidden cancellable)).
  { rewrite Hw1. cbn [heap on_heap]. by rewrite lookup_insert_eq. }
  assert (Hid1 : _task_id (heap w1 !!! self) = None).
  { unfold lookup_total, map_lookup_total. by rewrite Hheap1. }
  assert (Hn1 : uuid4_calls w1 = uuid4_calls w).
  { rewrite Hw1. cbn [uuid4_calls on_heap].
    apply (publish_frame 1 TaskUpdated unassigned w). }
  assert (Hbus1 : same_bus w1 (publish 1 TaskUpdated unassigned w)).
  { rewrite Hw1. apply same_bus_on_heap. }
  clear Hw1.
  (* the assignments before registration *)
  pose proof (set_subtitles_spec self before w1) as Hbefore.
  rewrite Hid1 in Hbefore. cbn [value_of_id] in Hbefore.
  fold unassigned in Hbefore.
  remember (on_heap _ _) as w2 eqn:Hw2 in Hbefore.
  destruct (publish_frame (length before) TaskUpdated unassigned w1)
    as (Hh & _ & _ & Hn).
  assert (Hsome2 : is_Some (heap w2 !! self)).
  { rewrite Hw2. cbn [heap on_heap]. apply assign_subtitles_is_Some.
    rewrite Hh, Hheap1. by eexists. }
  assert (Hid2 : _task_id (heap w2 !!! self) = None).
  { rewrite Hw2. cbn [heap on_heap].
    by rewrite task_id_assign_subtitles, Hh. }
  assert (Hn2 : uuid4_calls w2 = uuid4_calls w).
  { rewrite Hw2. cbn [uuid4_calls on_heap]. by rewrite Hn. }
  assert (Hbus2 : same_bus w2
            (publish (1 + length before) TaskUpdated unassigned w)).
  { rewrite Hw2. eapply same_bus_trans; [apply same_bus_on_heap|].
    rewrite <- publish_add. by apply publish_same_bus. }
  clear Hw2.
  (* registration *)
  pose proof (add_task_unassigned self w2 Hsome2 Hid2) as Hadd.
  cbv zeta in Hadd. rewrite Hn2 in Hadd. fold uniq assigned in Hadd.
  remember (exec _ _) as w3 eqn:Hw3 in Hadd.
  assert (Hid3 : _task_id (heap w3 !!! self) = Some uniq).
  { rewrite Hw3, send_signal_heap.
    cbn [heap on_heap on_TASKS on_uuid4_calls].
    unfold lookup_total, map_lookup_total. rewrite lookup_alter_eq.
    by destruct Hsome2 as [t ->]. }
  assert (Hbus3 : same_bus w3
            (publish 1 TaskAdded assigned
               (publish (1 + length before) TaskUpdated unassigned w))).
  { rewrite Hw3. apply (send_signal_same_bus TaskAdded).
    eapply same_bus_trans; [apply same_bus_on_TASKS|].
    eapply same_bus_trans; [apply same_bus_on_heap|].
    eapply same_bus_trans; [apply same_bus_on_uuid4_calls|].
    exact Hbus2. }
  clear Hw3.
  (* the assignments after registration *)
  pose proof (set_subtitles_spec self after w3) as Hafter.
  rewrite Hid3 in Hafter. cbn [value_of_id] in Hafter.
  fold assigned in Hafter.
  remember (on_heap _ _) as w4 eqn:Hw4 in Hafter.
  assert (Hbus4 : same_bus w4
            (publish (length after) TaskUpdated assigned
               (publish 1 TaskAdded assigned
                  (publish (1 + length before) TaskUpdated unassigned w)))).
  { rewrite Hw4. eapply same_bus_trans; [apply same_bus_on_heap|].
    by apply publish_same_bus. }
  assert (Hlife : life w = (Ret self, w4)).
  { subst life. unfold lifecycle, mbind, M_bind, bind.
    fold construct. by rewrite Hinit, Hbefore, Hadd, Hafter. }
  unfold ends, exec. rewrite Hinit, Hlife. cbn [fst snd].
  split; [done|]. split; [exact Hid1|].
  split; [by apply same_bus_observable|].
  split; [done|]. split; [by apply same_bus_observable|].
  destruct Hbus1 as (_ & Htr1 & Hui1). destruct Hbus4 as (_ & Htr4 & Hui4).
  destruct (send_signal_effect TaskUpdated unassigned w) as [Het Heu].
  split; [by rewrite Htr1|]. split; [by rewrite Hui1|].
  set (wb := publish (1 + length before) TaskUpdated unassigned w) in *.
  set (wa := publish 1 TaskAdded assigned wb) in *.
  assert (Hsb : _SIGNALS wb = _SIGNALS w) by apply publish_SIGNALS.
  assert (Hsa : _SIGNALS wa = _SIGNALS w).
  { subst wa. by rewrite publish_SIGNALS. }
  destruct (publication_same_SIGNALS w wb TaskAdded assigned Hsb)
    as [Hpb Hrb].
  destruct (publication_same_SIGNALS w wa TaskUpdated assigned Hsa)
    as [Hpa Hra].
  split.
  - rewrite Htr4, publish_trace, Hpa. subst wa.
    rewrite publish_trace, Hpb. subst wb. rewrite publish_trace.
    cbn [replicate mjoin list_join]. rewrite app_nil_r.
    by rewrite <- !app_assoc.
  - rewrite Hui4, publish_ui, Hra. subst wa.
    rewrite publish_ui, Hrb. subst wb. by rewrite publish_ui.
Qed.

(** With an entropy source that never repeats, the identifier
    [add_task] draws is not in the registry yet, and the registry keeps
    holding drawn identifiers only. *)
Lemma add_task_identifier_fresh w :
  Inj (=) (=) uuid4_source ->
  ids_drawn uuid4_source w ->
  _TASKS w !! uuid4_source (uuid4_calls w) = None.
Proof.
  intros Hinj Hdrawn.
  destruct (_TASKS w !! uuid4_source (uuid4_calls w)) eqn:E; [|done].
  destruct (Hdrawn (uuid4_source (uuid4_calls w))) as (i & Hi & Heq);
    [by eexists|].
  apply Hinj in Heq. lia.
Qed.

Lemma add_task_ids_drawn task w :
  ids_drawn uuid4_source w ->
  ids_drawn uuid4_source (exec (add_task uuid4_source task) w).
Proof.
  intros Hdrawn. unfold exec, add_task, uuid4, task_id_set, task_id.
  unfold_monad. simpl.
  destruct (_task_id (heap w !!! task)) as [old|]; simpl.
  - intros u Hu. destruct (Hdrawn u Hu) as (i & Hi & ->).
    exists i. simpl. split; [lia|done].
  - rewrite (surjective_pairing (send_signal _ _ _)).
    rewrite send_signal_spec. simpl.
    assert (Hgoal : forall w2 : @State UI,
      _TASKS w2 = <[uuid4_source (uuid4_calls w):=task]> (_TASKS w) ->
      uuid4_calls w2 = S (uuid4_calls w) -> ids_drawn uuid4_source w2).
    { intros w2 Ht Hn u Hu. rewrite Ht in Hu. rewrite Hn.
      destruct (decide (u = uuid4_source (uuid4_calls w))) as [->|Hne].
      - exists (uuid4_calls w). split; [lia|done].
      - rewrite lookup_insert_ne in Hu by done.
        destruct (Hdrawn u Hu) as (i & Hi & ->). exists i. split; [lia|done]. }
    destruct (_SIGNALS w !! TaskAdded); by apply Hgoal.
Qed.

(** C7: [add_task] on a task whose identifier is not assigned yet draws
    an identifier from [uuid4()] (the draw is used up; when [uuid4()] never
    repeats and the registry holds drawn identifiers only, the identifier
    is not in the registry yet), assigns it to the task, stores the task
    under it in [_TASKS], publishes [TaskAdded] with that identifier as
    payload (the trace grows by the events of that one publication and the
    handlers registered for [TaskAdded] have run once, in order) and
    returns it; on a task whose identifier is already assigned it raises
    [NotImplementedError], and the registry, the objects, the trace and
    the frontend state are what they were (no signal is published). *)
Theorem add_task_registers task t w :
  heap w !! task = Some t ->
  let uniq := uuid4_source (uuid4_calls w) in
  let w' := exec (add_task uuid4_source task) w in
  match _task_id t with
  | None =>
      ends (add_task uuid4_source task) w = Ret uniq /\
      heap w' = <[task := with_task_id (Some uniq) t]> (heap w) /\
      _TASKS w' = <[uniq := task]> (_TASKS w) /\
      observable w' =
        observable (publish 1 TaskAdded (Some (mkResult true (VUuid uniq))) w) /\
      trace w' =
        trace w ++ publication w TaskAdded (Some (mkResult true (VUuid uniq))) /\
      ui w' =
        handled (Some (mkResult true (VUuid uniq))) (registered w TaskAdded)
          (ui w) /\
      uuid4_calls w' = S (uuid4_calls w) /\
      (Inj (=) (=) uuid4_source -> ids_drawn uuid4_source w ->
       _TASKS w !! uniq = None /\ ids_drawn uuid4_source w')
  | Some _ =>
      ends (add_task uuid4_source task) w =
        Raise (NotImplementedError
                 "Invalid usage, Task.task_id should only set once") /\
      heap w' = heap w /\
      _TASKS w' = _TASKS w /\
      observable w' = observable w /\
      trace w' = trace w /\
      ui w' = ui w /\
      uuid4_calls w' = S (uuid4_calls w)
  end.
Proof.
  intros Ht uniq w'.
  pose proof (add_task_ids_drawn task w) as Hdrawn'. fold w' in Hdrawn'.
  destruct (_task_id t) as [old|] eqn:Hid.
  - subst w'. unfold ends, exec.
    rewrite (add_task_assigned task old); [done|].
    unfold lookup_total, map_lookup_total. by rewrite Ht.
  - set (payload := Some (mkResult true (VUuid uniq))).
    set (w0 := on_TASKS (insert uniq task)
                 (on_heap (alter (with_task_id (Some uniq)) task)
                    (on_uuid4_calls S w))).
    assert (Hrun : add_task uuid4_source task w =
                     (Ret uniq, exec (send_signal TaskAdded payload) w0)).
    { apply add_task_unassigned; [by eexists|].
      unfold lookup_total, map_lookup_total. by rewrite Ht. }
    assert (Hw' : w' = exec (send_signal TaskAdded payload) w0).
    { subst w'. unfold exec at 1. by rewrite Hrun. }
    unfold ends. rewrite Hrun. cbn [fst]. rewrite Hw' in *.
    assert (Hbus : same_bus (exec (send_signal TaskAdded payload) w0)
                     (exec (send_signal TaskAdded payload) w)).
    { apply send_signal_same_bus. subst w0.
      eapply same_bus_trans; [apply same_bus_on_TASKS|].
      eapply same_bus_trans; [apply same_bus_on_heap|].
      apply same_bus_on_uuid4_calls. }
    destruct (send_signal_effect TaskAdded payload w) as [Het Heu].
    destruct (publish_frame 1 TaskAdded payload w0) as (Hh & HT & _ & Hn).
    change (publish 1 TaskAdded payload w0)
      with (exec (send_signal TaskAdded payload) w0) in Hh, HT, Hn.
    split; [done|]. split.
    { rewrite Hh. subst w0. cbn [heap on_TASKS on_heap on_uuid4_calls].
      apply map_eq; intros k. destruct (decide (k = task)) as [->|Hne].
      - by rewrite lookup_alter_eq, lookup_insert_eq, Ht.
      - by rewrite lookup_alter_ne, lookup_insert_ne. }
    split; [by rewrite HT|].
    split; [by apply same_bus_observable|].
    destruct Hbus as (_ & Htr & Hui).
    split; [by rewrite Htr|]. split; [by rewrite Hui|].
    split; [by rewrite Hn|].
    intros Hinj Hdrawn. split; [by apply add_task_identifier_fresh|].
    by apply Hdrawn'.
Qed.
End Task.

Section stream_update.
Context {UI : Type}.
Variable gettext : string -> string.
Implicit Types (w : @State UI).

(** A status that is an enumeration member never matches the sequence
    pattern: the call goes on as if no status had been passed. *)
Lemma stream_update_status_ignored self received_size total_size s w :
  stream_update gettext self received_size total_size (VStatus s) w =
    stream_update gettext self received_size total_size VNone w.
Proof. reflexivity. Qed.

(** Only the pair itself takes the removal branch. *)
Lemma stream_update_pair_removes self received_size total_size w :
  stream_update gettext self received_size total_size
      (VTuple [VStatus DONE; VStatus FAILED]) w =
    remove_task (inr self) w.
Proof. reflexivity. Qed.

Lemma stream_update_calculating self status w :
  case_DONE_FAILED status = false ->
  stream_update gettext self 0 0 status w =
    subtitle_set self (gettext "Calculating…") w.
Proof. intros H. unfold stream_update. by rewrite H. Qed.

Lemma stream_update_percent self received_size total_size status percent w :
  case_DONE_FAILED status = false ->
  total_size <> 0%Z ->
  percent_of received_size total_size = inr percent ->
  stream_update gettext self received_size total_size status w =
    subtitle_set self (pretty percent +:+ "%") w.
Proof.
  intros H Ht Hp. unfold stream_update. rewrite H, Hp.
  destruct (Z.eqb_spec total_size 0); [done|]. done.
Qed.

(** With no total and some bytes received the division raises. *)
Lemma stream_update_zero_total self received_size status w :
  case_DONE_FAILED status = false ->
  received_size <> 0%Z ->
  stream_update gettext self received_size 0 status w =
    (Raise ZeroDivisionError, w).
Proof.
  intros H Hr. unfold stream_update. rewrite H. simpl.
  destruct (Z.eqb_spec received_size 0); [done|]. done.
Qed.

(** X9: A finished download shows "100%": whenever the received size equals a
    positive total, whatever the size, the binary64 quotient is exactly 1
    and the subtitle is set to that text (with one [TaskUpdated]). *)
Theorem stream_update_complete self total_size status w :
  (0 < total_size)%Z ->
  case_DONE_FAILED status = false ->
  let call := stream_update gettext self total_size total_size status in
  call w = subtitle_set self "100%" w /\
  ends call w = Ret tt /\
  trace (exec call w) =
    trace w ++
    publication w TaskUpdated
      (Some (mkResult true (value_of_id (_task_id (heap w !!! self))))) /\
  (forall t, heap w !! self = Some t ->
     heap (exec call w) !! self = Some (with_subtitle "100%" t)).
Proof.
  intros Hpos Hst call.
  assert (Hcall : call w = subtitle_set self "100%" w).
  { subst call. destruct total_size as [|p|p]; [lia| |lia].
    rewrite (stream_update_percent self _ _ status 100); try done.
    apply percent_of_complete. }
  split; [exact Hcall|]. unfold ends, exec. rewrite Hcall.
  apply subtitle_set_effect.
Qed.

(** X10: A download of known size that has received nothing yet shows "0%";
    it is only when the total is zero too that the "Calculating…" text is
    shown. *)
Theorem stream_update_nothing_received self total_size status w :
  total_size <> 0%Z ->
  case_DONE_FAILED status = false ->
  stream_update gettext self 0 total_size status w =
    subtitle_set self "0%" w /\
  stream_update gettext self 0 0 status w =
    subtitle_set self (gettext "Calculating…") w /\
  (forall t, heap w !! self = Some t ->
     heap (exec (stream_update gettext self 0 total_size status) w) !! self =
       Some (with_subtitle "0%" t) /\
     heap (exec (stream_update gettext self 0 0 status) w) !! self =
       Some (with_subtitle (gettext "Calculating…") t)) /\
  trace (exec (stream_update gettext self 0 total_size status) w) =
    trace w ++
    publication w TaskUpdated
      (Some (mkResult true (value_of_id (_task_id (heap w !!! self))))).
Proof.
  intros Ht Hst.
  assert (H0 : stream_update gettext self 0 total_size status w =
               subtitle_set self "0%" w).
  { rewrite (stream_update_percent self _ _ status 0); try done.
    by apply percent_of_nothing. }
  assert (Hc : stream_update gettext self 0 0 status w =
               subtitle_set self (gettext "Calculating…") w).
  { by apply stream_update_calculating. }
  split; [exact H0|]. split; [exact Hc|].
  unfold exec. rewrite H0, Hc.
  destruct (subtitle_set_effect self "0%" w) as (_ & Htr & Hh).
  destruct (subtitle_set_effect self (gettext "Calculating…") w)
    as (_ & _ & Hh').
  split; [|exact Htr]. intros t Hself. split; [by apply Hh|by apply Hh'].
Qed.
End stream_update.

Section LockManager.
Context {UI : Type} {A R : Type}.
Implicit Types (w : @State UI) (func : A -> M (@State UI) R).

(** X11: When the decorated function returns (having left the lock alone), the
    wrapper releases the lock and returns the function's value: the next
    call can acquire it. *)
Lemma locked_call_returns name func args rv w w' :
  _LOCKS w !! name <> Some true ->
  func args (on_LOCKS (insert name true)
               (on_LOCKS (setdefault name false) w)) = (Ret rv, w') ->
  _LOCKS w' !! name = Some true ->
  locked_call name func args w =
    (Ret rv, on_LOCKS (insert name false) w').
Proof.
  intros Hfree Hfunc Hheld. unfold locked_call, lock, get_lock, acquire, release.
  unfold_monad. simpl.
  assert (Hl : setdefault name false (_LOCKS w) !! name = Some false).
  { unfold setdefault. destruct (_LOCKS w !! name) as [[]|] eqn:E;
      [done|done|by rewrite lookup_insert_eq]. }
  rewrite Hl, Hfunc. simpl. by rewrite Hheld.
Qed.

Lemma locked_call_raises name func args e w w' :
  _LOCKS w !! name <> Some true ->
  func args (on_LOCKS (insert name true)
               (on_LOCKS (setdefault name false) w)) = (Raise e, w') ->
  locked_call name func args w = (Raise e, w').
Proof.
  intros Hfree Hfunc. unfold locked_call, lock, get_lock, acquire, release.
  unfold_monad. simpl.
  assert (Hl : setdefault name false (_LOCKS w) !! name = Some false).
  { unfold setdefault. destruct (_LOCKS w !! name) as [[]|] eqn:E;
      [done|done|by rewrite lookup_insert_eq]. }
  by rewrite Hl, Hfunc.
Qed.

Lemma locked_call_blocks name func args w :
  _LOCKS w !! name = Some true ->
  locked_call name func args w = (Block, w).
Proof.
  intros Hheld. unfold locked_call, lock, get_lock, acquire.
  unfold_monad. simpl. unfold setdefault. rewrite Hheld. simpl.
  rewrite Hheld. f_equal. destruct w as [h l t s n tr u].
  unfold on_LOCKS; simpl in *. by rewrite Hheld.
Qed.

(** X12: The lock is not reentrant: a decorated function that calls a function
    decorated with the same lock never gets to run the inner one; the call
    blocks with the lock held. *)
Theorem locked_call_not_reentrant name func args w :
  _LOCKS w !! name <> Some true ->
  let nested := locked_call name (fun a => locked_call name func a) args in
  ends nested w = Block /\
  exec nested w =
    on_LOCKS (insert name true) (on_LOCKS (setdefault name false) w).
Proof.
  intros Hfree nested. subst nested.
  set (w1 := on_LOCKS (insert name true) (on_LOCKS (setdefault name false) w)).
  assert (Hinner : locked_call name func args w1 = (Block, w1)).
  { apply locked_call_blocks. subst w1. simpl. by rewrite lookup_insert_eq. }
  assert (Hl : setdefault name false (_LOCKS w) !! name = Some false).
  { unfold setdefault. destruct (_LOCKS w !! name) as [[]|] eqn:E;
      [done|done|by rewrite lookup_insert_eq]. }
  assert (Hrun : locked_call name (fun a => locked_call name func a) args w =
                 (Block, w1)).
  { unfold locked_call at 1. unfold lock, get_lock, acquire.
    unfold mbind, M_bind, bind, get, modify, mret, M_ret, ret.
    cbn [_LOCKS on_LOCKS]. rewrite Hl. fold w1. by rewrite Hinner. }
  unfold ends, exec. by rewrite Hrun.
Qed.
End LockManager.

(** C1: [stream_update] with a terminal status does not deregister the
    task. [Status.DONE] and [Status.FAILED] fall through the sequence
    pattern, so the call is the one without a status: for the registered
    sample task and sizes [0, 0] it returns with the task still under its
    identifier in [_TASKS] and its subtitle changed to the "Calculating…"
    text, and no [TaskRemoved] is published. *)
Theorem stream_update_terminal_keeps_task :
  Forall (fun status =>
    let call := stream_update (fun msg => msg) 0 0 0 (VStatus status) in
    let w' := exec call sample_registered in
    ends call sample_registered = Ret tt /\
    _TASKS sample_registered !! 100%N = Some 0 /\
    _TASKS w' !! 100%N = Some 0 /\
    _subtitle (heap sample_registered !!! 0) = "" /\
    _subtitle (heap w' !!! 0) = "Calculating…" /\
    trace w' = trace sample_registered ++
      [Call 1 (Some (mkResult true (VUuid 100%N)));
       Call 3 (Some (mkResult true (VUuid 100%N)))])
    [DONE; FAILED].
Proof. repeat constructor. Qed.

(** C4: with no terminal status, a call with [total_size = 0] and
    [received_size > 0] is not guarded: the division raises
    [ZeroDivisionError] to the caller and the subtitle is not set (for the
    registered sample task: nothing at all changes). *)
Theorem stream_update_division_unguarded :
  let call := stream_update (fun msg => msg) 0 1 0 VNone in
  ends call sample_registered = Raise ZeroDivisionError /\
  exec call sample_registered = sample_registered.
Proof. split; reflexivity. Qed.

(** C2: when the decorated function raises, the wrapper built by
    [LockManager.lock] lets the exception through without releasing: after
    the call the lock is still held, and the next call blocks. *)
Theorem lock_not_released_on_raise :
  let call := locked_call ComponentsInstall sample_failing tt in
  let w' := exec call (State_loaded 0) in
  ends call (State_loaded 0) = Raise (OtherError "install failed") /\
  _LOCKS w' !! ComponentsInstall = Some true /\
  ends call w' = Block.
Proof. vm_compute. repeat split. Qed.

Lemma send_signal_dispatch_witness :
  _SIGNALS (State_loaded 0) = ∅ /\
  exec (send_signal TaskUpdated (Some (mkResult true VNone))) sample_State =
    on_ui (fun u => S (S u))
      (on_trace (fun tr => tr ++
         [Call 1 (Some (mkResult true VNone));
          Call 3 (Some (mkResult true VNone))]) sample_State).
Proof.
  split; [reflexivity|].
  exact (proj2 (proj2 (proj2
    (send_signal_dispatch (State_loaded 0) sample_regs TaskUpdated
       (Some (mkResult true VNone)) eq_refl)))).
Defined.

Lemma subtitle_mutations_publish_witness :
  _task_id (heap sample_registered !!! 0) = Some 100%N /\
  trace (exec (set_subtitles 0 ["10%"; "20%"]) sample_registered) =
    trace sample_registered ++
    mjoin (replicate 2
      (publication sample_registered TaskUpdated
         (Some (mkResult true (VUuid 100%N))))).
Proof.
  split; [reflexivity|].
  exact (proj1 (proj2 (proj2
    (subtitle_mutations_publish 0 100%N ["10%"; "20%"] sample_registered
       eq_refl)))).
Defined.

Lemma add_task_registers_witness :
  heap sample_second !! 1 = Some (mkTask None "Updating" "" false true) /\
  ends (add_task sample_source 1) sample_second = Ret 101%N /\
  _TASKS (exec (add_task sample_source 1) sample_second) =
    <[101%N := 1]> (_TASKS sample_second) /\
  trace (exec (add_task sample_source 1) sample_second) =
    trace sample_second ++ [Call 2 (Some (mkResult true (VUuid 101%N)))].
Proof.
  split; [reflexivity|].
  pose proof (add_task_registers sample_source 1
                (mkTask None "Updating" "" false true) sample_second eq_refl)
    as (H1 & _ & H3 & _ & H5 & _).
  split; [exact H1|]. split; [exact H3|exact H5].
Defined.

(** ** Further properties of the task registry *)

Section TaskManager.
Context {UI : Type}.
Variable uuid4_source : nat -> UUID.
Variable gettext : string -> string.
Implicit Types (w : @State UI) (h : gmap nat Task).

Lemma remove_task_run task w :
  remove_task task w =
    match resolve w task with
    | Some u =>
        match _TASKS w !! u with
        | Some _ =>
            send_signal TaskRemoved (Some (mkResult true (VUuid u)))
              (on_TASKS (delete u) w)
        | None => (Raise (KeyError (VUuid u)), w)
        end
    | None => (Raise (KeyError VNone), w)
    end.
Proof.
  unfold remove_task, resolve, task_id. unfold_monad.
  destruct task as [u|t]; simpl.
  - by destruct (_TASKS w !! u).
  - destruct (_task_id (heap w !!! t)) as [u|]; simpl; [|done].
    by destruct (_TASKS w !! u).
Qed.

(** X1: Removing a task that is registered, given by identifier or as the
    object: the entry is deleted, the other entries and the objects stay,
    one [TaskRemoved] with the identifier is published (the trace grows by
    the events of that one publication and the handlers registered for
    [TaskRemoved] have run once, in order), and the call returns. *)
Theorem remove_task_registered task u w :
  resolve w task = Some u ->
  is_Some (_TASKS w !! u) ->
  let w' := exec (remove_task task) w in
  ends (remove_task task) w = Ret tt /\
  _TASKS w' = delete u (_TASKS w) /\
  heap w' = heap w /\
  observable w' =
    observable (publish 1 TaskRemoved (Some (mkResult true (VUuid u))) w) /\
  trace w' =
    trace w ++ publication w TaskRemoved (Some (mkResult true (VUuid u))) /\
  ui w' =
    handled (Some (mkResult true (VUuid u))) (registered w TaskRemoved) (ui w).
Proof.
  intros Hres [t Ht] w'. subst w'. unfold ends.
  set (payload := Some (mkResult true (VUuid u))).
  assert (Hrun : remove_task task w =
            (Ret tt, exec (send_signal TaskRemoved payload)
                       (on_TASKS (delete u) w))).
  { rewrite remove_task_run, Hres, Ht. unfold exec, payload.
    rewrite (surjective_pairing (send_signal _ _ _)).
    by rewrite send_signal_spec at 1. }
  assert (Hw' : exec (remove_task task) w =
                exec (send_signal TaskRemoved payload)
                  (on_TASKS (delete u) w)).
  { unfold exec at 1. by rewrite Hrun. }
  rewrite Hw', Hrun. cbn [fst].
  destruct (publish_frame 1 TaskRemoved payload (on_TASKS (delete u) w))
    as (Hh & Ht' & _).
  change (publish 1 TaskRemoved payload (on_TASKS (delete u) w))
    with (exec (send_signal TaskRemoved payload) (on_TASKS (delete u) w))
    in Hh, Ht'.
  split; [done|]. split; [exact Ht'|]. split; [exact Hh|].
  assert (Hbus : same_bus
            (exec (send_signal TaskRemoved payload) (on_TASKS (delete u) w))
            (exec (send_signal TaskRemoved payload) w)).
  { apply send_signal_same_bus, same_bus_on_TASKS. }
  destruct (send_signal_effect TaskRemoved payload w) as [Het Heu].
  split; [by apply same_bus_observable|].
  destruct Hbus as (_ & Htr & Hui).
  split; [by rewrite Htr|by rewrite Hui].
Qed.

(** X2: Removing what is not registered (an unknown identifier, a task whose
    identifier is not in the registry, a task that has no identifier yet)
    raises [KeyError] with the looked-up key; nothing changes and no signal
    is published. *)
Theorem remove_task_unregistered task w :
  match resolve w task with
  | Some u => _TASKS w !! u = None
  | None => True
  end ->
  remove_task task w =
    (Raise (KeyError (value_of_id (resolve w task))), w).
Proof.
  intros H. rewrite remove_task_run.
  destruct (resolve w task) as [u|]; [|done]. by rewrite H.
Qed.

(** *** What each call does to the identifiers and to the registry *)

Local Abbreviation id_of w l := (_task_id (heap w !!! l)).

Lemma id_of_allocated w l u : id_of w l = Some u -> is_Some (heap w !! l).
Proof.
  unfold lookup_total, map_lookup_total.
  destruct (heap w !! l); [by eexists|done].
Qed.

Lemma id_alter_keeps h self g l :
  (forall t, _task_id (g t) = _task_id t) ->
  _task_id (alter g self h !!! l) = _task_id (h !!! l).
Proof.
  intros Hg. destruct (decide (l = self)) as [->|Hne].
  - by apply task_id_alter.
  - unfold lookup_total, map_lookup_total. by rewrite lookup_alter_ne.
Qed.

Lemma exec_bind_ret {A} (m : M (@State UI) A) w :
  exec (m;; mret tt) w = exec m w.
Proof. unfold_monad. by destruct (m w) as [[a|e|] w']. Qed.

Lemma send_signal_frame signal data w :
  heap (exec (send_signal signal data) w) = heap w /\
  _TASKS (exec (send_signal signal data) w) = _TASKS w.
Proof.
  destruct (publish_frame 1 signal data w) as (Hh & Ht & _). by split.
Qed.

Lemma subtitle_set_frame self value w :
  heap (exec (subtitle_set self value) w) =
    alter (with_subtitle value) self (heap w) /\
  _TASKS (exec (subtitle_set self value) w) = _TASKS w.
Proof.
  unfold exec. rewrite subtitle_set_spec. cbn [snd heap _TASKS on_heap].
  destruct (send_signal_frame TaskUpdated
    (Some (mkResult true (value_of_id (id_of w self)))) w) as [Hh Ht].
  by rewrite Hh, Ht.
Qed.

Lemma Task_init_frame title subtitle hidden cancellable w :
  heap (exec (Task_init title subtitle hidden cancellable) w) =
    <[fresh (dom (heap w)) :=
        mkTask None title subtitle hidden cancellable]> (heap w) /\
  _TASKS (exec (Task_init title subtitle hidden cancellable) w) = _TASKS w.
Proof.
  unfold exec.
  pose proof (Task_init_spec title subtitle hidden cancellable w) as H.
  cbv zeta in H. rewrite H. cbn [snd heap _TASKS on_heap].
  destruct (send_signal_frame TaskUpdated (Some (mkResult true VNone)) w)
    as [Hh Ht].
  by rewrite Hh, Ht.
Qed.

Lemma task_id_set_run self value w :
  task_id_set self value w =
    match id_of w self with
    | Some _ =>
        (Raise (NotImplementedError
                  "Invalid usage, Task.task_id should only set once"), w)
    | None => (Ret tt, on_heap (alter (with_task_id (Some value)) self) w)
    end.
Proof.
  unfold task_id_set. unfold_monad. by destruct (id_of w self).
Qed.

Lemma add_task_frame task w :
  let uniq := uuid4_source (uuid4_calls w) in
  let w' := exec (add_task uuid4_source task) w in
  match id_of w task with
  | Some _ => heap w' = heap w /\ _TASKS w' = _TASKS w
  | None =>
      heap w' = alter (with_task_id (Some uniq)) task (heap w) /\
      _TASKS w' = <[uniq := task]> (_TASKS w)
  end.
Proof.
  intros uniq w'. subst w'. unfold exec, add_task, uuid4, task_id.
  unfold mbind, M_bind, bind, get, modify, mret, M_ret, ret.
  rewrite task_id_set_run. cbn [heap on_uuid4_calls].
  destruct (id_of w task) as [old|]; [done|].
  cbn [uuid4_calls]. fold uniq.
  rewrite send_signal_spec. simpl.
  by destruct (_SIGNALS w !! TaskAdded).
Qed.

Lemma remove_task_frame task w :
  heap (exec (remove_task task) w) = heap w /\
  _TASKS (exec (remove_task task) w) =
    match resolve w task with
    | Some u => delete u (_TASKS w)
    | None => _TASKS w
    end.
Proof.
  unfold exec. rewrite remove_task_run.
  destruct (resolve w task) as [u|]; [|done].
  destruct (_TASKS w !! u) as [t|] eqn:E.
  - rewrite send_signal_spec. simpl.
    by destruct (_SIGNALS w !! TaskRemoved).
  - cbn [snd]. split; [done|]. by rewrite delete_id.
Qed.

Lemma stream_update_frame self received_size total_size status w :
  let w' := exec (stream_update gettext self received_size total_size status) w in
  (forall l, id_of w' l = id_of w l) /\
  (forall u t, _TASKS w' !! u = Some t -> _TASKS w !! u = Some t).
Proof.
  intros w'. subst w'. unfold stream_update.
  destruct (case_DONE_FAILED status).
  { destruct (remove_task_frame (inr self) w) as [Hh Ht].
    rewrite Hh, Ht. split; [done|]. intros u t.
    destruct (resolve w (inr self)) as [u'|]; [|done].
    intros H. apply lookup_delete_Some in H. tauto. }
  destruct ((total_size =? 0)%Z && (received_size =? 0)%Z).
  { destruct (subtitle_set_frame self (gettext "Calculating…") w) as [Hh Ht].
    rewrite Hh, Ht. split; [|done]. intros l. by apply id_alter_keeps. }
  destruct (percent_of received_size total_size) as [e|percent].
  { done. }
  destruct (subtitle_set_frame self (pretty percent +:+ "%") w) as [Hh Ht].
  rewrite Hh, Ht. split; [|done]. intros l. by apply id_alter_keeps.
Qed.

Lemma fresh_not_allocated w l :
  is_Some (heap w !! l) -> l <> fresh (dom (heap w)).
Proof.
  intros Hl ->. apply elem_of_dom in Hl. by apply is_fresh in Hl.
Qed.

Lemma run_call_keeps_id c w l u :
  id_of w l = Some u ->
  id_of (exec (run_call uuid4_source gettext c) w) l = Some u.
Proof.
  intros Hid. pose proof (id_of_allocated w l u Hid) as Hl.
  destruct c as [ti su hi ca|self v|self v|self r t st|task|task|i|sg fn|sg d|nm];
    cbn [run_call]; rewrite ?exec_bind_ret.
  - destruct (Task_init_frame ti su hi ca w) as [Hh _]. rewrite Hh.
    unfold lookup_total, map_lookup_total.
    rewrite lookup_insert_ne; [done|].
    intros E. by apply (fresh_not_allocated w l).
  - destruct (subtitle_set_frame self v w) as [Hh _]. rewrite Hh.
    by rewrite id_alter_keeps.
  - unfold exec. rewrite task_id_set_run.
    destruct (id_of w self) as [old|] eqn:E; [done|].
    cbn [snd heap on_heap]. unfold lookup_total, map_lookup_total.
    rewrite lookup_alter_ne; [done|]. intros ->. congruence.
  - destruct (stream_update_frame self r t st w) as [Hh _]. by rewrite Hh.
  - pose proof (add_task_frame task w) as H. cbv zeta in H.
    destruct (id_of w task) as [old|] eqn:E; destruct H as [Hh _];
      rewrite Hh; [done|].
    unfold lookup_total, map_lookup_total.
    rewrite lookup_alter_ne; [done|]. intros ->. congruence.
  - destruct (remove_task_frame task w) as [Hh _]. by rewrite Hh.
  - done.
  - unfold exec. by rewrite connect_signal_spec.
  - destruct (send_signal_frame sg d w) as [Hh _]. by rewrite Hh.
  - done.
Qed.

(** X5: An identifier, once assigned to a task, is never changed or cleared
    by any sequence of calls: not by registering again, by the setter, by
    removal, by progress updates or by constructing other tasks. *)
Theorem task_id_write_once cs w l u :
  _task_id (heap w !!! l) = Some u ->
  _task_id (heap (run_calls uuid4_source gettext cs w) !!! l) = Some u.
Proof.
  revert w. induction cs as [|c cs IH]; intros w Hid; [done|].
  simpl. apply IH. by apply run_call_keeps_id.
Qed.

Lemma run_call_consistent c w :
  registry_consistent w ->
  refs_allocated w c ->
  registry_consistent (exec (run_call uuid4_source gettext c) w).
Proof.
  intros Hw Hrefs.
  assert (Hkeep : forall w',
    (forall u t, _TASKS w' !! u = Some t -> _TASKS w !! u = Some t) ->
    (forall l u, id_of w l = Some u -> id_of w' l = Some u) ->
    registry_consistent w').
  { intros w' Ht Hi u t Hu. apply Hi, Hw, Ht, Hu. }
  pose proof (run_call_keeps_id c w) as Hids.
  destruct c as [ti su hi ca|self v|self v|self r t st|task|task|i|sg fn|sg d|nm];
    cbn [run_call] in *; rewrite ?exec_bind_ret in *.
  - apply Hkeep.
    + destruct (Task_init_frame ti su hi ca w) as [_ Ht]. by rewrite Ht.
    + exact Hids.
  - apply Hkeep.
    + destruct (subtitle_set_frame self v w) as [_ Ht]. by rewrite Ht.
    + exact Hids.
  - apply Hkeep.
    + unfold exec. rewrite task_id_set_run. by destruct (id_of w self).
    + exact Hids.
  - apply Hkeep.
    + apply stream_update_frame.
    + exact Hids.
  - pose proof (add_task_frame task w) as H. cbv zeta in H.
    destruct (id_of w task) as [old|] eqn:E; destruct H as [Hh Ht].
    + apply Hkeep; [by rewrite Ht|]. intros l u. by rewrite Hh.
    + intros u t. rewrite Ht, Hh.
      destruct (decide (u = uuid4_source (uuid4_calls w))) as [->|Hne].
      * rewrite lookup_insert_eq. intros [= <-].
        unfold lookup_total, map_lookup_total. rewrite lookup_alter_eq.
        cbn [refs_allocated] in Hrefs. by destruct Hrefs as [t0 ->].
      * rewrite lookup_insert_ne by done. intros Hu.
        pose proof (Hw u t Hu) as Hid.
        unfold lookup_total, map_lookup_total.
        rewrite lookup_alter_ne; [done|]. intros ->. congruence.
  - apply Hkeep.
    + destruct (remove_task_frame task w) as [_ Ht]. rewrite Ht.
      destruct (resolve w task) as [u'|]; [|done].
      intros u t H. apply lookup_delete_Some in H. tauto.
    + exact Hids.
  - by apply Hkeep.
  - apply Hkeep; unfold exec; by rewrite connect_signal_spec.
  - destruct (send_signal_frame sg d w) as [Hh Ht]. apply Hkeep.
    + by rewrite Ht.
    + intros l u. by rewrite Hh.
  - by apply Hkeep.
Qed.

(** X6: In every state a client can reach from a consistent one (the freshly
    loaded module, for one), each entry of [_TASKS] maps an identifier to a
    task that carries that very identifier. *)
Theorem registry_stays_consistent w0 w :
  registry_consistent w0 ->
  reachable uuid4_source gettext w0 w ->
  registry_consistent w.
Proof.
  intros H0 Hreach. induction Hreach as [|w c _ IH Hrefs]; [done|].
  by apply run_call_consistent.
Qed.

(** X3: After [add_task] on an unregistered task, [get_task] with the returned
    identifier finds that task; every other identifier is looked up as
    before; [get_task] returns [None] for an identifier that is not there
    and never changes anything. *)
Theorem add_task_get_task task t w :
  heap w !! task = Some t ->
  _task_id t = None ->
  let uniq := uuid4_source (uuid4_calls w) in
  let w' := exec (add_task uuid4_source task) w in
  ends (get_task uniq) w' = Ret (Some task) /\
  (forall u, u <> uniq -> ends (get_task u) w' = ends (get_task u) w) /\
  (forall u, _TASKS w' !! u = None -> ends (get_task u) w' = Ret None) /\
  (forall u, exec (get_task u) w' = w').
Proof.
  intros Ht Hid uniq w'.
  pose proof (add_task_frame task w) as H. cbv zeta in H.
  rewrite (lookup_total_correct _ _ _ Ht), Hid in H. destruct H as [_ HT].
  fold uniq w' in HT. unfold ends, exec, get_task. unfold_monad.
  cbn [fst snd]. rewrite HT. split; [by rewrite lookup_insert_eq|].
  split; [|split; [|done]].
  - intros u Hu. by rewrite lookup_insert_ne.
  - intros u Hu. by rewrite Hu.
Qed.

(** X4: Registering a task under an identifier the registry does not hold yet
    and then removing that task restores the registry; the task keeps the
    identifier it was given, so registering it again raises
    [NotImplementedError]. *)
Theorem add_task_remove_task task t w :
  heap w !! task = Some t ->
  _task_id t = None ->
  let uniq := uuid4_source (uuid4_calls w) in
  _TASKS w !! uniq = None ->
  let w1 := exec (add_task uuid4_source task) w in
  let w2 := exec (remove_task (inr task)) w1 in
  ends (remove_task (inr task)) w1 = Ret tt /\
  _TASKS w2 = _TASKS w /\
  _task_id (heap w2 !!! task) = Some uniq /\
  ends (add_task uuid4_source task) w2 =
    Raise (NotImplementedError
             "Invalid usage, Task.task_id should only set once").
Proof.
  intros Ht Hid uniq Hfresh w1 w2.
  pose proof (add_task_frame task w) as H. cbv zeta in H.
  rewrite (lookup_total_correct _ _ _ Ht), Hid in H. destruct H as [Hh1 HT1].
  fold uniq w1 in Hh1, HT1.
  assert (Hid1 : _task_id (heap w1 !!! task) = Some uniq).
  { rewrite Hh1. unfold lookup_total, map_lookup_total.
    by rewrite lookup_alter_eq, Ht. }
  assert (Hres : resolve w1 (inr task) = Some uniq) by exact Hid1.
  assert (Hin : is_Some (_TASKS w1 !! uniq)).
  { rewrite HT1, lookup_insert_eq. by eexists. }
  destruct (remove_task_registered (inr task) uniq w1 Hres Hin)
    as (Hret & HT2 & Hh2 & _).
  fold w2 in HT2, Hh2.
  assert (Hid2 : _task_id (heap w2 !!! task) = Some uniq).
  { by rewrite Hh2. }
  split; [exact Hret|]. split.
  { rewrite HT2, HT1. rewrite delete_insert_eq. by apply delete_id. }
  split; [exact Hid2|].
  unfold ends. by rewrite (add_task_assigned uuid4_source task uniq).
Qed.

(** X7: Constructing a task allocates an object that did not exist: the
    objects there were are untouched, the new one has the given fields and
    no identifier, and the registry is not changed (a task is not
    registered by being constructed). *)
Theorem Task_init_allocates title subtitle hidden cancellable w :
  let self := fresh (dom (heap w)) in
  let w' := exec (Task_init title subtitle hidden cancellable) w in
  heap w !! self = None /\
  ends (Task_init title subtitle hidden cancellable) w = Ret self /\
  heap w' = <[self := mkTask None title subtitle hidden cancellable]> (heap w) /\
  (forall l, l <> self -> heap w' !! l = heap w !! l) /\
  _TASKS w' = _TASKS w.
Proof.
  intros self w'.
  destruct (Task_init_frame title subtitle hidden cancellable w) as [Hh Ht].
  fold self w' in Hh, Ht.
  split. { apply not_elem_of_dom, is_fresh. }
  split. { unfold ends. pose proof (Task_init_spec title subtitle hidden
             cancellable w) as H. cbv zeta in H. by rewrite H. }
  split; [exact Hh|]. split; [|exact Ht].
  intros l Hl. rewrite Hh. by rewrite lookup_insert_ne.
Qed.
(** X8: With a [uuid4()] that never repeats and a registry that holds
    drawn identifiers only, [add_task] on an unregistered task never
    overwrites an entry: the identifier it draws is not a key yet, every
    entry there was is still there, the registry has exactly one entry
    more, and it still holds drawn identifiers only. *)
Theorem add_task_never_overwrites task t w :
  heap w !! task = Some t ->
  _task_id t = None ->
  Inj (=) (=) uuid4_source ->
  ids_drawn uuid4_source w ->
  let uniq := uuid4_source (uuid4_calls w) in
  let w' := exec (add_task uuid4_source task) w in
  _TASKS w !! uniq = None /\
  (forall u t', _TASKS w !! u = Some t' -> _TASKS w' !! u = Some t') /\
  _TASKS w' !! uniq = Some task /\
  size (_TASKS w') = S (size (_TASKS w)) /\
  ids_drawn uuid4_source w'.
Proof.
  intros Ht Hid Hinj Hdrawn uniq w'.
  pose proof (add_task_identifier_fresh uuid4_source w Hinj Hdrawn) as Hfresh.
  fold uniq in Hfresh.
  pose proof (add_task_frame task w) as H. cbv zeta in H.
  rewrite (lookup_total_correct _ _ _ Ht), Hid in H. destruct H as [_ HT].
  fold uniq w' in HT.
  split; [exact Hfresh|]. split.
  { intros u t' Hu. rewrite HT. rewrite lookup_insert_ne; [done|].
    intros <-. congruence. }
  split; [by rewrite HT, lookup_insert_eq|].
  split; [rewrite HT; by apply map_size_insert_None|].
  by apply add_task_ids_drawn.
Qed.
End TaskManager.

Lemma remove_task_registered_witness :
  resolve sample_registered (inr 0) = Some 100%N /\
  is_Some (_TASKS sample_registered !! 100%N) /\
  _TASKS (exec (remove_task (inr 0)) sample_registered) =
    delete 100%N (_TASKS sample_registered).
Proof.
  assert (H1 : resolve sample_registered (inr 0) = Some 100%N)
    by reflexivity.
  assert (H2 : is_Some (_TASKS sample_registered !! 100%N))
    by (exists 0; reflexivity).
  split; [exact H1|]. split; [exact H2|].
  exact (proj1 (proj2
    (remove_task_registered (inr 0) 100%N sample_registered H1 H2))).
Defined.

Lemma remove_task_unregistered_witness :
  _TASKS sample_registered !! 7%N = None /\
  remove_task (inl 7%N) sample_registered =
    (Raise (KeyError (VUuid 7%N)), sample_registered).
Proof.
  split; [reflexivity|].
  exact (remove_task_unregistered (inl 7%N) sample_registered eq_refl).
Defined.

Lemma task_id_write_once_witness :
  _task_id (heap sample_registered !!! 0) = Some 100%N /\
  _task_id
    (heap (run_calls sample_source (fun msg => msg)
             [Call_add_task 0; Call_task_id_set 0 5%N;
              Call_remove_task (inr 0);
              Call_stream_update 0 1 2 (VTuple [VStatus DONE; VStatus FAILED])]
             sample_registered) !!! 0) = Some 100%N.
Proof.
  split; [reflexivity|].
  exact (task_id_write_once sample_source (fun msg => msg) _
           sample_registered 0 100%N eq_refl).
Defined.

Lemma registry_stays_consistent_witness :
  registry_consistent (State_loaded 0) /\
  reachable sample_source (fun msg => msg) (State_loaded 0)
    (exec (run_call sample_source (fun msg => msg) (Call_add_task 0))
       (exec (run_call sample_source (fun msg => msg)
                (Call_Task "Installing" "" false false)) (State_loaded 0))) /\
  registry_consistent
    (exec (run_call sample_source (fun msg => msg) (Call_add_task 0))
       (exec (run_call sample_source (fun msg => msg)
                (Call_Task "Installing" "" false false)) (State_loaded 0))).
Proof.
  assert (H0 : registry_consistent (State_loaded 0)).
  { intros u t H. discriminate H. }
  assert (H1 : reachable sample_source (fun msg => msg) (State_loaded 0)
    (exec (run_call sample_source (fun msg => msg) (Call_add_task 0))
       (exec (run_call sample_source (fun msg => msg)
                (Call_Task "Installing" "" false false)) (State_loaded 0)))).
  { apply reachable_call.
    - apply reachable_call; [apply reachable_start|exact I].
    - exists (mkTask None "Installing" "" false false). reflexivity. }
  split; [exact H0|]. split; [exact H1|].
  exact (registry_stays_consistent sample_source (fun msg => msg) _ _ H0 H1).
Defined.

Lemma add_task_get_task_witness :
  heap sample_constructed !! 0 =
    Some (mkTask None "Installing" "" false false) /\
  ends (get_task 100%N) (exec (add_task sample_source 0) sample_constructed) =
    Ret (Some 0).
Proof.
  split; [reflexivity|].
  exact (proj1
    (add_task_get_task sample_source 0
       (mkTask None "Installing" "" false false) sample_constructed
       eq_refl eq_refl)).
Defined.

Lemma add_task_remove_task_witness :
  heap sample_constructed !! 0 =
    Some (mkTask None "Installing" "" false false) /\
  _TASKS sample_constructed !! 100%N = None /\
  _TASKS (exec (remove_task (inr 0))
            (exec (add_task sample_source 0) sample_constructed)) =
    _TASKS sample_constructed.
Proof.
  split; [reflexivity|]. split; [reflexivity|].
  exact (proj1 (proj2
    (add_task_remove_task sample_source 0
       (mkTask None "Installing" "" false false) sample_constructed
       eq_refl eq_refl eq_refl))).
Defined.

Lemma stream_update_complete_witness :
  (0 < 4096)%Z /\
  stream_update (fun msg => msg) 0 4096 4096 VNone sample_registered =
    subtitle_set 0 "100%" sample_registered.
Proof.
  split; [reflexivity|].
  exact (proj1 (stream_update_complete (fun msg => msg) 0 4096 VNone
                  sample_registered eq_refl eq_refl)).
Defined.

Lemma stream_update_nothing_received_witness :
  4096%Z <> 0%Z /\
  stream_update (fun msg => msg) 0 0 4096 VNone sample_registered =
    subtitle_set 0 "0%" sample_registered.
Proof.
  assert (H : 4096%Z <> 0%Z) by discriminate.
  split; [exact H|].
  exact (proj1 (stream_update_nothing_received (fun msg => msg) 0 4096 VNone
                  sample_registered H eq_refl)).
Defined.

Lemma locked_call_returns_witness :
  _LOCKS (State_loaded 0) !! ComponentsInstall <> Some true /\
  locked_call ComponentsInstall sample_job 3 (State_loaded 0) =
    (Ret 6,
     on_LOCKS (insert ComponentsInstall false)
       (on_ui (fun u => u + 3)
          (on_LOCKS (insert ComponentsInstall true)
             (on_LOCKS (setdefault ComponentsInstall false)
                (State_loaded 0))))).
Proof.
  assert (H : _LOCKS (State_loaded 0) !! ComponentsInstall <> Some true)
    by discriminate.
  split; [exact H|].
  exact (locked_call_returns ComponentsInstall sample_job 3 6 (State_loaded 0)
           _ H eq_refl eq_refl).
Defined.

Lemma locked_call_not_reentrant_witness :
  _LOCKS (State_loaded 0) !! ComponentsInstall <> Some true /\
  ends (locked_call ComponentsInstall
          (fun a => locked_call ComponentsInstall sample_job a) 3)
    (State_loaded 0) = Block.
Proof.
  assert (H : _LOCKS (State_loaded 0) !! ComponentsInstall <> Some true)
    by discriminate.
  split; [exact H|].
  exact (proj1 (locked_call_not_reentrant ComponentsInstall sample_job 3
                  (State_loaded 0) H)).
Defined.

Lemma add_task_never_overwrites_witness :
  heap sample_second !! 1 = Some (mkTask None "Updating" "" false true) /\
  Inj (=) (=) sample_source /\
  ids_drawn sample_source sample_second /\
  _TASKS sample_second !! 100%N = Some 0 /\
  _TASKS sample_second !! 101%N = None /\
  size (_TASKS (exec (add_task sample_source 1) sample_second)) = 2.
Proof.
  assert (H1 : Inj (=) (=) sample_source).
  { intros x y H. unfold sample_source in H. lia. }
  assert (HT : _TASKS sample_second = {[100%N := 0]}) by reflexivity.
  assert (H2 : ids_drawn sample_source sample_second).
  { intros u [t H]. rewrite HT in H.
    apply lookup_singleton_Some in H as [<- _].
    exists 0. split; [|reflexivity].
    change (uuid4_calls sample_second) with 1. lia. }
  split; [reflexivity|]. split; [exact H1|]. split; [exact H2|].
  split; [reflexivity|].
  pose proof (add_task_never_overwrites sample_source 1
                (mkTask None "Updating" "" false true) sample_second
                eq_refl eq_refl H1 H2) as (Hf & _ & _ & Hs & _).
  split; [exact Hf|]. rewrite Hs. by rewrite HT.
Defined.
End StateTheory.

(** * Properties of bottles/backend/repos/repo.py *)
Module RepoTheory.
Import RepoPy.

Section RepoStatus.
Context {U : Type}.
Implicit Types (w : @World U) (name : string).

Lemma insert_setdefault name (b b' : bool) (m : gmap string bool) :
  <[name:=b]> (setdefault name b' m) = <[name:=b]> m.
Proof.
  unfold setdefault. destruct (m !! name); [done|].
  by rewrite insert_insert_eq.
Qed.

Lemma repo_start_operation_spec name w :
  repo_start_operation name w =
    (Ret tt,
     on_trace (fun tr => tr ++ [Log DEBUG ("Start operation " +:+ name)])
       (on_EVENTS (insert name false) w)).
Proof.
  unfold repo_start_operation, logging. unfold_monad. simpl.
  unfold on_trace, on_EVENTS; simpl. by rewrite insert_setdefault.
Qed.

Lemma repo_done_operation_spec name w :
  repo_done_operation name w =
    (Ret tt,
     on_trace (fun tr => tr ++ [Log DEBUG ("Done operation " +:+ name)])
       (on_EVENTS (insert name true) w)).
Proof.
  unfold repo_done_operation, logging. unfold_monad. simpl.
  unfold on_trace, on_EVENTS; simpl. by rewrite insert_setdefault.
Qed.

Lemma repo_wait_operation_set name w :
  EVENTS w !! name = Some true ->
  repo_wait_operation name w =
    (Ret tt,
     on_trace (fun tr => tr ++ [Log DEBUG ("Done wait operation " +:+ name)])
       w).
Proof.
  intros H. unfold repo_wait_operation, logging. unfold_monad. simpl.
  unfold setdefault. rewrite H. rewrite H. do 2 f_equal.
  destruct w as [h E tr u]. unfold on_EVENTS; simpl in *. by rewrite H.
Qed.

Lemma repo_wait_operation_unset name w :
  EVENTS w !! name <> Some true ->
  repo_wait_operation name w =
    (Block, on_EVENTS (setdefault name false) w).
Proof.
  intros H. unfold repo_wait_operation, logging. unfold_monad. simpl.
  unfold setdefault at 1.
  destruct (EVENTS w !! name) as [[]|] eqn:E; [done| |].
  - by rewrite E.
  - by rewrite lookup_insert_eq.
Qed.

(** No call but [repo_start_operation(name)] clears the gate [name]. *)
Lemma run_keeps_signaled o name w :
  o <> Start name ->
  EVENTS w !! name = Some true ->
  EVENTS (exec (run o) w) !! name = Some true.
Proof.
  intros Ho Hset. destruct o as [n|n|n]; unfold exec; cbn [run].
  - rewrite repo_start_operation_spec. simpl.
    rewrite lookup_insert_ne; [done|]. congruence.
  - rewrite repo_done_operation_spec. simpl.
    destruct (decide (n = name)) as [->|Hne].
    + by rewrite lookup_insert_eq.
    + by rewrite lookup_insert_ne.
  - destruct (decide (EVENTS w !! n = Some true)) as [Hn|Hn].
    + by rewrite repo_wait_operation_set.
    + rewrite repo_wait_operation_unset by done. simpl.
      unfold setdefault. destruct (EVENTS w !! n) eqn:E; [done|].
      rewrite lookup_insert_ne; [done|]. congruence.
Qed.

Lemma after_keeps_signaled ops name w :
  Forall (fun o => o <> Start name) ops ->
  EVENTS w !! name = Some true ->
  EVENTS (after ops w) !! name = Some true.
Proof.
  intros Hops. revert w. induction Hops as [|o ops Ho _ IH]; intros w Hset.
  - done.
  - simpl. apply IH. by apply run_keeps_signaled.
Qed.

(** C5: whatever the state (in particular when [name] was never
    started), after [repo_done_operation(name)] the gate is set, and it
    stays set through every later sequence of [RepoStatus] calls of any
    thread that has no [repo_start_operation(name)] in it, so that a
    [repo_wait_operation(name)] made then returns without blocking; the
    same holds after start then done; the next
    [repo_start_operation(name)] clears the gate, and a wait then
    blocks. *)
Theorem gate_signaled_until_next_start name
    (ops : list operation) w :
  Forall (fun o => o <> Start name) ops ->
  let done_first := after ops (exec (repo_done_operation name) w) in
  let cycle :=
    after ops (exec (repo_done_operation name)
                 (exec (repo_start_operation name) w)) in
  let rearmed := exec (repo_start_operation name) cycle in
  EVENTS done_first !! name = Some true /\
  ends (repo_wait_operation name) done_first = Ret tt /\
  EVENTS cycle !! name = Some true /\
  ends (repo_wait_operation name) cycle = Ret tt /\
  EVENTS rearmed !! name = Some false /\
  ends (repo_wait_operation name) rearmed = Block.
Proof.
  intros Hops done_first cycle rearmed.
  assert (Hdone : forall w0,
    EVENTS (after ops (exec (repo_done_operation name) w0)) !! name =
      Some true).
  { intros w0. apply after_keeps_signaled; [done|].
    unfold exec. rewrite repo_done_operation_spec. simpl.
    by rewrite lookup_insert_eq. }
  assert (Hre : EVENTS rearmed !! name = Some false).
  { subst rearmed. unfold exec at 1. rewrite repo_start_operation_spec.
    simpl. by rewrite lookup_insert_eq. }
  split; [apply Hdone|]. split.
  { unfold ends. by rewrite repo_wait_operation_set by apply Hdone. }
  split; [apply Hdone|]. split.
  { unfold ends. by rewrite repo_wait_operation_set by apply Hdone. }
  split; [exact Hre|].
  unfold ends. rewrite repo_wait_operation_unset; [done|].
  rewrite Hre. congruence.
Qed.
End RepoStatus.

Section Repo.
Context {U : Type}.
Variable transport : string -> transfer.
Variable yaml_load : list Byte.byte -> exn + value.
Variable decode_utf8 : list Byte.byte -> option string.
Implicit Types (w : @World U) (callback : option (U -> U)).

(** C3, as the code has it: when the transport raises a transport error
    for the URL, [get_manifest] returns an empty mapping and logs one
    error, in plain mode as in parsing mode; nothing else changes, and the
    failure is not propagated in either mode. *)
Theorem get_manifest_transport_error self url plain w :
  transport url = Failed pycurl_error ->
  let call := get_manifest transport yaml_load decode_utf8 self url plain in
  ends call w = Ret (VDict []) /\
  exec call w =
    on_trace (fun tr => tr ++
      [Perform url;
       Log ERROR ("Cannot fetch " +:+ name (heap w !!! self) +:+ " manifest.")])
      w.
Proof.
  intros Hdown call. subst call.
  unfold ends, exec, get_manifest, self_name, try_except, curl_get, logging.
  unfold_monad. simpl. rewrite Hdown. simpl.
  split; [done|]. unfold on_trace; simpl. by rewrite <- app_assoc.
Qed.

(** The thread of an offline or index-less repository, whenever it runs:
    no transfer, an empty catalog, the gate set, the callback called
    once. *)
Lemma fetch_thread_offline self r index offline callback w :
  heap w !! self = Some r ->
  empty_or_None index || offline = true ->
  fetch_thread transport yaml_load self index offline callback w =
    (Ret tt,
     on_user (callback_effect callback)
       (on_trace (fun tr => tr ++
          [Log DEBUG ("Start operation " +:+ (name r +:+ ".fetching"));
           Log DEBUG ("Done operation " +:+ (name r +:+ ".fetching"))] ++
          callback_calls callback)
          (on_EVENTS (insert (name r +:+ ".fetching") true)
             (on_heap (insert self (with_catalog (VDict []) r)) w)))).
Proof.
  intros Hr Hoff.
  assert (Hname : forall w0 r0, heap w0 !! self = Some r0 ->
            self_name self w0 = (Ret (name r0), w0)).
  { intros w0 r0 H0. unfold self_name. unfold_monad.
    unfold lookup_total, map_lookup_total. by rewrite H0. }
  assert (Hget : __get_catalog transport yaml_load self index offline w =
            (Ret (VDict []),
             exec (repo_start_operation (name r +:+ ".fetching")) w)).
  { unfold __get_catalog, mbind, M_bind, bind, exec.
    rewrite (Hname w r Hr), repo_start_operation_spec, Hoff. done. }
  unfold fetch_thread, RunAsync. rewrite Hget.
  unfold exec. rewrite repo_start_operation_spec. cbn [snd].
  unfold set_catalog, mbind, M_bind, bind, modify.
  rewrite (Hname _ (with_catalog (VDict []) r)).
  2: { cbn [heap on_heap on_trace on_EVENTS].
       by rewrite lookup_alter_eq, Hr. }
  cbn [name with_catalog]. rewrite repo_done_operation_spec.
  assert (Hheap : alter (with_catalog (VDict [])) self (heap w) =
                  <[self:=with_catalog (VDict []) r]> (heap w)).
  { apply map_eq; intros k. destruct (decide (k = self)) as [->|Hne].
    - by rewrite lookup_alter_eq, lookup_insert_eq, Hr.
    - by rewrite lookup_alter_ne, lookup_insert_ne. }
  destruct callback as [f|]; unfold call_callback, mbind, M_bind, bind,
    modify, mret, M_ret, ret; f_equal;
    unfold on_user, on_trace, on_EVENTS, on_heap; simpl;
    rewrite Hheap, insert_insert_eq, <- !app_assoc; simpl; done.
Qed.

(** C6: constructing a [Repo] with an empty or null index, or offline,
    returns the new object without any transfer or other trace and with
    the thread started; when that thread runs it returns after no
    transfer at all: the catalog of the object is the empty mapping, the
    gate ["{name}.fetching"] is set, and the callback, when there is one,
    has been called exactly once. *)
Theorem offline_or_empty_index_resolves cls_name url index offline
    callback w :
  empty_or_None index || offline = true ->
  let self := fresh (dom (heap w)) in
  let gate := cls_name +:+ ".fetching" in
  let construct :=
    Repo_init transport yaml_load cls_name url index offline callback in
  let thread := fetch_thread transport yaml_load self index offline callback in
  let w1 := exec construct w in
  let w2 := exec thread w1 in
  ends construct w = Ret (self, thread) /\
  trace w1 = trace w /\
  catalog (heap w1 !!! self) = VNone /\
  ends thread w1 = Ret tt /\
  catalog (heap w2 !!! self) = VDict [] /\
  EVENTS w2 !! gate = Some true /\
  trace w2 = trace w ++
    [Log DEBUG ("Start operation " +:+ gate);
     Log DEBUG ("Done operation " +:+ gate)] ++ callback_calls callback /\
  user w2 = callback_effect callback (user w).
Proof.
  intros Hoff self gate construct thread w1 w2.
  assert (Hinit : construct w =
    (Ret (self, thread),
     on_heap (insert self {| name := cls_name; url := url;
                             catalog := VNone |}) w)).
  { reflexivity. }
  assert (Hw1 : w1 = on_heap (insert self {| name := cls_name; url := url;
                                             catalog := VNone |}) w).
  { subst w1. unfold exec. by rewrite Hinit. }
  assert (Hr : heap w1 !! self =
               Some {| name := cls_name; url := url; catalog := VNone |}).
  { rewrite Hw1. simpl. by rewrite lookup_insert_eq. }
  pose proof (fetch_thread_offline self _ index offline callback w1 Hr Hoff)
    as Hthread.
  fold thread in Hthread. cbn [name] in Hthread. fold gate in Hthread.
  unfold ends. rewrite Hinit. split; [done|].
  split; [by rewrite Hw1|].
  split; [unfold lookup_total, map_lookup_total; by rewrite Hr|].
  subst w2. unfold exec. rewrite Hthread. cbn [fst snd].
  split; [done|]. split.
  { simpl. unfold lookup_total, map_lookup_total.
    by rewrite lookup_insert_eq. }
  split; [simpl; by rewrite lookup_insert_eq|].
  split; [by rewrite Hw1|by rewrite Hw1].
Qed.
End Repo.

(** C3, as stated, fails in plain mode: with a transport that raises a
    transport error, [get_manifest(url, plain=True)] returns the empty
    mapping; it does not raise. *)
Lemma get_manifest_plain_does_not_raise :
  ends (get_manifest sample_down sample_yaml_load sample_decode 0
          "https://repo.example/manifest.yml" true) sample_World =
    Ret (VDict []) /\
  ~ (exists e,
       ends (get_manifest sample_down sample_yaml_load sample_decode 0
               "https://repo.example/manifest.yml" true) sample_World =
         Raise e).
Proof.
  split; [reflexivity|]. intros [e He]. discriminate He.
Qed.

Lemma get_manifest_transport_error_witness :
  sample_down "https://repo.example/manifest.yml" = Failed pycurl_error /\
  exec (get_manifest sample_down sample_yaml_load sample_decode 0
          "https://repo.example/manifest.yml" true) sample_World =
    on_trace (fun tr => tr ++
      [Perform "https://repo.example/manifest.yml";
       Log ERROR "Cannot fetch components manifest."]) sample_World.
Proof.
  split; [reflexivity|].
  exact (proj2 (get_manifest_transport_error sample_down sample_yaml_load
                  sample_decode 0 "https://repo.example/manifest.yml" true
                  sample_World eq_refl)).
Defined.

Lemma offline_or_empty_index_resolves_witness :
  empty_or_None (Some "") || false = true /\
  ends (fetch_thread sample_down sample_yaml_load
          (fresh (dom (heap sample_World))) (Some "") false (Some S))
    (exec (Repo_init sample_down sample_yaml_load "components"
             "https://repo.example" (Some "") false (Some S)) sample_World) =
    Ret tt.
Proof.
  split; [reflexivity|].
  exact (proj1 (proj2 (proj2 (proj2
    (offline_or_empty_index_resolves sample_down sample_yaml_load
       "components" "https://repo.example" (Some "") false (Some S)
       sample_World eq_refl))))).
Defined.

Lemma gate_signaled_until_next_start_witness :
  Forall (fun o => o <> Start "components.fetching")
    [Await "components.fetching"; Start "dependencies.fetching";
     Complete "components.fetching"] /\
  ends (repo_wait_operation "components.fetching")
    (after [Await "components.fetching"; Start "dependencies.fetching";
            Complete "components.fetching"]
       (exec (repo_done_operation "components.fetching") sample_World)) =
    Ret tt.
Proof.
  assert (H : Forall (fun o => o <> Start "components.fetching")
    [Await "components.fetching"; Start "dependencies.fetching";
     Complete "components.fetching"]).
  { repeat constructor; discriminate. }
  split; [exact H|].
  exact (proj1 (proj2
    (gate_signaled_until_next_start "components.fetching" _ sample_World H))).
Defined.

(** ** Further properties of the gates and of the fetches *)

Section Gates.
Context {U : Type}.
Implicit Types (w : @World U) (name : string).

(** X13: Waiting on a gate that was never referenced creates it, not set, and
    blocks the caller; a [repo_done_operation] by anyone then lets the wait
    return. *)
Theorem wait_on_unknown_gate name w :
  EVENTS w !! name = None ->
  let w1 := exec (repo_wait_operation name) w in
  ends (repo_wait_operation name) w = Block /\
  w1 = on_EVENTS (insert name false) w /\
  ends (repo_wait_operation name) (exec (repo_done_operation name) w1) = Ret tt.
Proof.
  intros Hnone w1. subst w1. unfold ends, exec.
  rewrite repo_wait_operation_unset by (rewrite Hnone; congruence).
  cbn [fst snd]. split; [done|].
  assert (Hw1 : on_EVENTS (setdefault name false) w =
                on_EVENTS (insert name false) w).
  { unfold on_EVENTS, setdefault. by rewrite Hnone. }
  rewrite Hw1. split; [done|].
  rewrite repo_done_operation_spec. cbn [snd].
  rewrite repo_wait_operation_set; [done|].
  cbn [EVENTS on_trace on_EVENTS]. by rewrite lookup_insert_eq.
Qed.

(** X14: Whether a gate is set changes only through [repo_start_operation] and
    [repo_done_operation] on that very name: calls on other names, and
    waits on any name, leave it as it is. *)
Theorem gate_changes_only_by_its_name (o : operation) name w :
  switches o <> Some name ->
  is_set (exec (run o) w) name = is_set w name.
Proof.
  intros Ho. unfold is_set, exec.
  destruct o as [n|n|n]; cbn [run switches] in *.
  - rewrite repo_start_operation_spec. cbn [snd EVENTS on_trace on_EVENTS].
    rewrite lookup_insert_ne; [done|]. congruence.
  - rewrite repo_done_operation_spec. cbn [snd EVENTS on_trace on_EVENTS].
    rewrite lookup_insert_ne; [done|]. congruence.
  - destruct (decide (EVENTS w !! n = Some true)) as [Hn|Hn].
    + by rewrite repo_wait_operation_set.
    + rewrite repo_wait_operation_unset by done.
      cbn [snd EVENTS on_EVENTS]. unfold setdefault.
      destruct (EVENTS w !! n) as [b|] eqn:E; [done|].
      destruct (decide (n = name)) as [->|Hne].
      * by rewrite lookup_insert_eq, E.
      * by rewrite lookup_insert_ne.
Qed.
End Gates.

Section Fetches.
Context {U : Type}.
Variable transport : string -> transfer.
Variable yaml_load : list Byte.byte -> exn + value.
Variable decode_utf8 : list Byte.byte -> option string.
Implicit Types (w : @World U) (callback : option (U -> U)).

Lemma self_name_run self r w :
  heap w !! self = Some r -> self_name self w = (Ret (name r), w).
Proof.
  intros H. unfold self_name. unfold_monad.
  by rewrite (lookup_total_correct _ _ _ H).
Qed.

Lemma on_trace_app_nil w : on_trace (fun tr => tr ++ []) w = w.
Proof. destruct w. unfold on_trace; simpl. by rewrite app_nil_r. Qed.

(** What [get_manifest] does, case by case. *)
Lemma get_manifest_run self url plain w :
  let reached := on_trace (fun tr => tr ++ transfers transport url) w in
  let swallowed :=
    (Ret (VDict []),
     on_trace (fun tr => tr ++
       [Log ERROR ("Cannot fetch " +:+ name (heap w !!! self) +:+ " manifest.")])
       reached) in
  get_manifest transport yaml_load decode_utf8 self url plain w =
    match transport url with
    | Rejected e | Failed e =>
        if fetch_errors e then swallowed else (Raise e, reached)
    | Received res =>
        if plain then
          match decode_utf8 res with
          | Some text => (Ret (VStr text), reached)
          | None => (Raise UnicodeDecodeError, reached)
          end
        else
          match yaml_load res with
          | inr doc => (Ret doc, reached)
          | inl e => if fetch_errors e then swallowed else (Raise e, reached)
          end
    end.
Proof.
  intros reached swallowed. subst reached swallowed.
  unfold get_manifest, self_name, try_except, curl_get, logging, transfers.
  unfold_monad.
  destruct (transport url) as [e|e|res].
  - rewrite on_trace_app_nil. by destruct (fetch_errors e).
  - by destruct (fetch_errors e).
  - destruct plain.
    + by destruct (decode_utf8 res).
    + destruct (yaml_load res) as [e|doc]; [|done].
      by destruct (fetch_errors e).
Qed.

(** X15: [get_manifest] never touches the objects (so not the catalog), the
    gates or the callbacks' state. It makes at most one transfer, for the
    given URL (one, unless the URL is rejected while the handle is set up,
    and then none), and logs at most one entry after it, an error, which it
    does only when it returns the empty mapping in place of a failure. *)
Theorem get_manifest_frame self url plain w :
  let call := get_manifest transport yaml_load decode_utf8 self url plain in
  let w' := exec call w in
  heap w' = heap w /\ EVENTS w' = EVENTS w /\ user w' = user w /\
  (transfers transport url = [] \/
   transfers transport url = [Perform url]) /\
  (trace w' = trace w ++ transfers transport url \/
   trace w' = trace w ++ transfers transport url ++
     [Log ERROR ("Cannot fetch " +:+ name (heap w !!! self) +:+ " manifest.")] /\
   ends call w = Ret (VDict [])).
Proof.
  intros call w'. subst call w'. unfold ends, exec.
  rewrite get_manifest_run. cbv zeta.
  assert (Hn : transfers transport url = [] \/
               transfers transport url = [Perform url]).
  { unfold transfers. destruct (transport url); auto. }
  assert (Happ : forall tr (l : list event) (b : event),
            (tr ++ l) ++ [b] = tr ++ l ++ [b]).
  { intros. by rewrite <- app_assoc. }
  destruct (transport url) as [e|e|res].
  - destruct (fetch_errors e); cbn; rewrite ?Happ; auto 7.
  - destruct (fetch_errors e); cbn; rewrite ?Happ; auto 7.
  - destruct plain.
    + destruct (decode_utf8 res); cbn; auto 7.
    + destruct (yaml_load res) as [e|doc]; [|cbn; auto 7].
      destruct (fetch_errors e); cbn; rewrite ?Happ; auto 7.
Qed.

(** X16: A body that is not valid UTF-8 makes plain mode raise
    [UnicodeDecodeError]: the decoding failure is not among the caught
    exceptions, and nothing is logged. *)
Theorem get_manifest_plain_undecodable self url res w :
  transport url = Received res ->
  decode_utf8 res = None ->
  get_manifest transport yaml_load decode_utf8 self url true w =
    (Raise UnicodeDecodeError, on_trace (fun tr => tr ++ [Perform url]) w).
Proof.
  intros Ht Hd. rewrite get_manifest_run. cbv zeta. unfold transfers.
  by rewrite Ht, Hd.
Qed.

(** X17: Plain mode returns the decoded text of whatever was downloaded and
    never parses it: a document the parser rejects is returned all the
    same, where parsing mode logs an error and returns the empty
    mapping. *)
Theorem get_manifest_plain_skips_parsing self url res text w :
  transport url = Received res ->
  decode_utf8 res = Some text ->
  yaml_load res = inl YAMLError ->
  ends (get_manifest transport yaml_load decode_utf8 self url true) w =
    Ret (VStr text) /\
  ends (get_manifest transport yaml_load decode_utf8 self url false) w =
    Ret (VDict []).
Proof.
  intros Ht Hd Hy. unfold ends. rewrite !get_manifest_run. cbv zeta.
  by rewrite Ht, Hd, Hy.
Qed.

(** A manifest that downloads and parses is returned as parsed, with the
    transfer as the only trace. *)
Theorem get_manifest_parsed self url res doc w :
  transport url = Received res ->
  yaml_load res = inr doc ->
  get_manifest transport yaml_load decode_utf8 self url false w =
    (Ret doc, on_trace (fun tr => tr ++ [Perform url]) w).
Proof.
  intros Ht Hy. rewrite get_manifest_run. cbv zeta. unfold transfers.
  by rewrite Ht, Hy.
Qed.

(** What [__get_catalog] does for an index that is to be downloaded. *)
Lemma get_catalog_online self r location w :
  heap w !! self = Some r ->
  location <> "" ->
  let started :=
    on_trace (fun tr => tr ++ transfers transport location)
      (exec (repo_start_operation (name r +:+ ".fetching")) w) in
  __get_catalog transport yaml_load self (Some location) false w =
    match fetched transport yaml_load location with
    | inr doc =>
        (Ret doc,
         on_trace (fun tr => tr ++
           [Log INFO ("Catalog " +:+ name r +:+ " loaded")]) started)
    | inl e =>
        if fetch_errors e then
          (Ret (VDict []),
           on_trace (fun tr => tr ++
             [Log ERROR ("Cannot fetch " +:+ name r +:+ " repository index.")])
             started)
        else (Raise e, started)
    end.
Proof.
  intros Hr Hloc started. subst started.
  unfold __get_catalog, mbind, M_bind, bind.
  rewrite (self_name_run self r w Hr).
  unfold exec. rewrite repo_start_operation_spec. cbn [snd].
  cbn [empty_or_None]. rewrite bool_decide_eq_false_2 by done.
  cbn [orb default].
  unfold try_except, curl_get, logging, fetched, transfers.
  unfold mbind, M_bind, bind, modify, mret, M_ret, ret, raise.
  change (id location) with location.
  destruct (transport location) as [e|e|body].
  - rewrite on_trace_app_nil. by destruct (fetch_errors e).
  - by destruct (fetch_errors e).
  - destruct (yaml_load body) as [e|doc]; [|done].
    by destruct (fetch_errors e).
Qed.

(** X18: An exception of the download or of the parser that is neither
    [pycurl.error] nor [yaml.YAMLError] (the [UnicodeEncodeError] of a
    location that cannot be encoded, raised before any transfer, for one)
    is not swallowed by [__get_catalog]: it is raised to whoever runs the
    fetch, nothing is logged about it, and the gate is left cleared. *)
Theorem get_catalog_lets_other_errors_through self r location e w :
  heap w !! self = Some r ->
  location <> "" ->
  fetched transport yaml_load location = inl e ->
  fetch_errors e = false ->
  let call := __get_catalog transport yaml_load self (Some location) false in
  ends call w = Raise e /\
  EVENTS (exec call w) !! (name r +:+ ".fetching") = Some false /\
  trace (exec call w) =
    trace w ++ [Log DEBUG ("Start operation " +:+ (name r +:+ ".fetching"))] ++
    transfers transport location.
Proof.
  intros Hr Hloc Hf He call. subst call. unfold ends, exec.
  rewrite (get_catalog_online self r location w Hr Hloc). cbv zeta.
  rewrite Hf, He. unfold exec. rewrite repo_start_operation_spec.
  cbn [fst snd EVENTS trace on_trace on_EVENTS].
  split; [done|]. split; [by rewrite lookup_insert_eq|].
  by rewrite <- app_assoc.
Qed.

(** X19: A fetch that is really made resolves whether the download and the
    parse succeed or fail with a caught error: one transfer (none when the
    location is rejected before it), the catalog replaced by the parsed
    document (by the empty mapping after a failure, with one error
    logged), then the gate set, then the callback, when there is one,
    called once. *)
Theorem fetch_thread_resolves self r location callback w :
  heap w !! self = Some r ->
  location <> "" ->
  match fetched transport yaml_load location with
  | inl e => fetch_errors e = true
  | inr _ => True
  end ->
  let gate := name r +:+ ".fetching" in
  let thread :=
    fetch_thread transport yaml_load self (Some location) false callback in
  let result :=
    match fetched transport yaml_load location with
    | inr doc => doc
    | inl _ => VDict []
    end in
  let entry :=
    match fetched transport yaml_load location with
    | inr _ => Log INFO ("Catalog " +:+ name r +:+ " loaded")
    | inl _ => Log ERROR ("Cannot fetch " +:+ name r +:+ " repository index.")
    end in
  let w' := exec thread w in
  ends thread w = Ret tt /\
  catalog (heap w' !!! self) = result /\
  EVENTS w' !! gate = Some true /\
  trace w' = trace w ++
    [Log DEBUG ("Start operation " +:+ gate)] ++
    transfers transport location ++
    [entry; Log DEBUG ("Done operation " +:+ gate)] ++
    callback_calls callback /\
  user w' = callback_effect callback (user w).
Proof.
  intros Hr Hloc Hcaught gate thread result entry w'.
  assert (Hget : exists w1,
    __get_catalog transport yaml_load self (Some location) false w =
      (Ret result, w1) /\
    heap w1 = heap w /\ user w1 = user w /\
    trace w1 = trace w ++
      [Log DEBUG ("Start operation " +:+ gate)] ++
      transfers transport location ++ [entry]).
  { rewrite (get_catalog_online self r location w Hr Hloc). cbv zeta.
    subst result entry. unfold exec. rewrite repo_start_operation_spec.
    destruct (fetched transport yaml_load location) as [e|doc].
    - rewrite Hcaught. eexists. split; [reflexivity|].
      cbn [heap user trace on_trace on_EVENTS snd].
      repeat split. by rewrite <- !app_assoc.
    - eexists. split; [reflexivity|].
      cbn [heap user trace on_trace on_EVENTS snd].
      repeat split. by rewrite <- !app_assoc. }
  destruct Hget as (w1 & Hget & Hh1 & Hu1 & Ht1).
  assert (Hr1 : heap w1 !! self = Some r) by (by rewrite Hh1).
  assert (Hset : set_catalog self callback result None w1 =
    (Ret tt,
     on_user (callback_effect callback)
       (on_trace (fun tr => tr ++
          [Log DEBUG ("Done operation " +:+ gate)] ++ callback_calls callback)
          (on_EVENTS (insert gate true)
             (on_heap (alter (with_catalog result) self) w1))))).
  { unfold set_catalog, mbind, M_bind, bind, modify.
    rewrite (self_name_run self (with_catalog result r)).
    2: { cbn [heap on_heap]. by rewrite lookup_alter_eq, Hr1. }
    cbn [name with_catalog]. fold gate.
    rewrite repo_done_operation_spec.
    destruct callback as [f|]; unfold call_callback, mbind, M_bind, bind,
      modify, mret, M_ret, ret; f_equal;
      unfold on_user, on_trace, on_EVENTS, on_heap; cbn;
      rewrite <- ?app_assoc; done. }
  assert (Hthread : thread w =
    (Ret tt,
     on_user (callback_effect callback)
       (on_trace (fun tr => tr ++
          [Log DEBUG ("Done operation " +:+ gate)] ++ callback_calls callback)
          (on_EVENTS (insert gate true)
             (on_heap (alter (with_catalog result) self) w1))))).
  { subst thread. unfold fetch_thread, RunAsync. by rewrite Hget, Hset. }
  subst w'. unfold ends, exec. rewrite Hthread.
  cbn [fst snd heap EVENTS trace user on_user on_trace on_EVENTS on_heap].
  split; [done|]. split.
  { unfold lookup_total, map_lookup_total. by rewrite lookup_alter_eq, Hr1. }
  split; [by rewrite lookup_insert_eq|].
  split; [|by rewrite Hu1].
  rewrite Ht1. by rewrite <- !app_assoc.
Qed.

(** X20: Constructing a [Repo] only allocates the object: it neither clears
    nor sets any gate (the gate is cleared by the thread, when it runs), so
    until then a wait on any name ends as it would have before; in
    particular a gate left set by an earlier fetch lets it through. *)
Theorem Repo_init_leaves_gates cls_name url index offline callback w :
  let self := fresh (dom (heap w)) in
  let construct :=
    Repo_init transport yaml_load cls_name url index offline callback in
  let w1 := exec construct w in
  heap w !! self = None /\
  heap w1 = <[self := mkRepo cls_name url VNone]> (heap w) /\
  EVENTS w1 = EVENTS w /\
  forall name,
    ends (repo_wait_operation name) w1 = ends (repo_wait_operation name) w.
Proof.
  intros self construct w1.
  assert (Hw1 : w1 = on_heap (insert self (mkRepo cls_name url VNone)) w)
    by reflexivity.
  split; [apply not_elem_of_dom, is_fresh|].
  split; [by rewrite Hw1|]. split; [by rewrite Hw1|].
  intros name. unfold ends.
  destruct (decide (EVENTS w !! name = Some true)) as [Hn|Hn].
  - rewrite !repo_wait_operation_set; [done|done|by rewrite Hw1].
  - rewrite !repo_wait_operation_unset; [done|done|by rewrite Hw1].
Qed.
End Fetches.

Lemma wait_on_unknown_gate_witness :
  EVENTS sample_World !! "components.fetching" = None /\
  ends (repo_wait_operation "components.fetching") sample_World = Block.
Proof.
  split; [reflexivity|].
  exact (proj1 (wait_on_unknown_gate "components.fetching" sample_World
                  eq_refl)).
Defined.

Lemma gate_changes_only_by_its_name_witness :
  switches (Complete "dependencies.fetching") <> Some "components.fetching" /\
  is_set (exec (run (Complete "dependencies.fetching")) sample_World)
    "components.fetching" = is_set sample_World "components.fetching".
Proof.
  assert (H : switches (Complete "dependencies.fetching") <>
              Some "components.fetching") by discriminate.
  split; [exact H|].
  exact (gate_changes_only_by_its_name (Complete "dependencies.fetching")
           "components.fetching" sample_World H).
Defined.

Lemma get_manifest_plain_undecodable_witness :
  sample_up "https://repo.example/manifest.yml" =
    Received [Byte.x61; Byte.x3a; Byte.x20; Byte.x62] /\
  sample_undecodable [Byte.x61; Byte.x3a; Byte.x20; Byte.x62] = None /\
  ends (get_manifest sample_up sample_parse sample_undecodable 0
          "https://repo.example/manifest.yml" true) sample_World =
    Raise UnicodeDecodeError.
Proof.
  split; [reflexivity|]. split; [reflexivity|].
  exact (f_equal fst
    (get_manifest_plain_undecodable sample_up sample_parse sample_undecodable
       0 "https://repo.example/manifest.yml" _ sample_World
       eq_refl eq_refl)).
Defined.

Lemma get_manifest_plain_skips_parsing_witness :
  sample_up "https://repo.example/manifest.yml" =
    Received [Byte.x61; Byte.x3a; Byte.x20; Byte.x62] /\
  sample_decode [Byte.x61; Byte.x3a; Byte.x20; Byte.x62] = Some "" /\
  sample_reject [Byte.x61; Byte.x3a; Byte.x20; Byte.x62] = inl YAMLError /\
  ends (get_manifest sample_up sample_reject sample_decode 0
          "https://repo.example/manifest.yml" true) sample_World =
    Ret (VStr "").
Proof.
  split; [reflexivity|]. split; [reflexivity|]. split; [reflexivity|].
  exact (proj1
    (get_manifest_plain_skips_parsing sample_up sample_reject sample_decode
       0 "https://repo.example/manifest.yml" _ "" sample_World
       eq_refl eq_refl eq_refl)).
Defined.

Lemma get_catalog_lets_other_errors_through_witness :
  heap sample_World !! 0 =
    Some (mkRepo "components" "https://repo.example" (VDict [])) /\
  "https://repo.example/índice.yml" <> "" /\
  fetched sample_broken sample_parse "https://repo.example/índice.yml" =
    inl UnicodeEncodeError /\
  fetch_errors UnicodeEncodeError = false /\
  ends (__get_catalog sample_broken sample_parse 0
          (Some "https://repo.example/índice.yml") false) sample_World =
    Raise UnicodeEncodeError /\
  trace (exec (__get_catalog sample_broken sample_parse 0
                 (Some "https://repo.example/índice.yml") false)
           sample_World) =
    [Log DEBUG "Start operation components.fetching"].
Proof.
  assert (H : "https://repo.example/índice.yml" <> "") by discriminate.
  split; [reflexivity|]. split; [exact H|].
  split; [reflexivity|]. split; [reflexivity|].
  pose proof
    (get_catalog_lets_other_errors_through sample_broken sample_parse 0 _
       "https://repo.example/índice.yml" _ sample_World
       eq_refl H eq_refl eq_refl) as (H1 & _ & H3).
  split; [exact H1|exact H3].
Defined.

Lemma fetch_thread_resolves_witness :
  heap sample_World !! 0 =
    Some (mkRepo "components" "https://repo.example" (VDict [])) /\
  "https://repo.example/index.yml" <> "" /\
  catalog
    (heap (exec (fetch_thread sample_up sample_parse 0
                   (Some "https://repo.example/index.yml") false (Some S))
             sample_World) !!! 0) =
    VDict [(VStr "a", VStr "b")].
Proof.
  assert (H : "https://repo.example/index.yml" <> "") by discriminate.
  split; [reflexivity|]. split; [exact H|].
  exact (proj1 (proj2
    (fetch_thread_resolves sample_up sample_parse 0 _
       "https://repo.example/index.yml" (Some S) sample_World
       eq_refl H I))).
Defined.
End RepoTheory.
